(** * WebP WIC codec: the frame adapter of [decode_frame.cpp]

    A shallow embedding of [DecodeFrame] and [DummyFrame]: the one-shot decode
    in [CreateFromVP8Stream], the strided rectangle copy in [CopyPixels], the
    small property getters and the two [QueryInterface] implementations.

    Conventions.
    - [int] and [UINT] values are carried as [Z]; every arithmetic operation
      the source performs on them is written with its 32-bit wrap-around.
    - A pointer argument is an [option]: [None] is [NULL], [Some v] is a valid
      location whose current content is [v].  An operation returns the new
      content of every location it may write.
    - Behaviour that C++ leaves undefined and that the hardware turns into a
      fault (division by zero, access through [NULL], access outside a buffer)
      is an explicit [Trap] outcome. *)

From Stdlib Require Import ZArith List Lia Bool.
From Stdlib Require Import Strings.Byte.
Import ListNotations.
Local Open Scope Z_scope.

(* ================================================================== *)
(** ** Machine integers and outcomes *)
(* ================================================================== *)

Definition INT_MAX : Z := 2147483647.
Definition UINT_MAX : Z := 4294967295.

(** Two's complement reduction of a mathematical integer to [int]. *)
Definition wrap_int (z : Z) : Z := (z + 2 ^ 31) mod 2 ^ 32 - 2 ^ 31.

(** [static_cast<UINT>(z)]. *)
Definition to_UINT (z : Z) : Z := z mod 2 ^ 32.

(** Conversion of an [int] to [size_t] (64-bit build), as happens to the
    third argument of [memcpy]. *)
Definition to_size_t (z : Z) : Z := z mod 2 ^ 64.

Definition int_add (a b : Z) : Z := wrap_int (a + b).
Definition int_mul (a b : Z) : Z := wrap_int (a * b).

Definition is_UINT (z : Z) : Prop := 0 <= z <= UINT_MAX.

Inductive fault : Type :=
| DivideByZero
| NullDereference
| OutOfBounds
| OutOfFuel.

Inductive outcome (A : Type) : Type :=
| Ret (a : A)
| Trap (f : fault).

Arguments Ret {A} a.
Arguments Trap {A} f.

Definition bind {A B : Type} (m : outcome A) (k : A -> outcome B) : outcome B :=
  match m with
  | Ret a => k a
  | Trap f => Trap f
  end.

Notation "x <- m ;; k" := (bind m (fun x => k))
  (at level 61, m at next level, right associativity).

(** Unsigned division; a zero divisor faults. *)
Definition udiv (a b : Z) : outcome Z :=
  if b =? 0 then Trap DivideByZero else Ret (a / b).

(* ================================================================== *)
(** ** Byte buffers *)
(* ================================================================== *)

Definition buffer : Type := list byte.

Definition size (b : buffer) : Z := Z.of_nat (length b).

(** The byte at offset [off], if that offset is inside the buffer. *)
Definition byte_at (b : buffer) (off : Z) : option byte :=
  if off <? 0 then None else nth_error b (Z.to_nat off).

(** [n] bytes read from offset [off]. *)
Definition load (b : buffer) (off n : Z) : outcome buffer :=
  if (0 <=? off) && (0 <=? n) && (off + n <=? size b)
  then Ret (firstn (Z.to_nat n) (skipn (Z.to_nat off) b))
  else Trap OutOfBounds.

(** [data] written at offset [off]; the buffer keeps its size. *)
Definition store (b : buffer) (off : Z) (data : buffer) : outcome buffer :=
  if (0 <=? off) && (off + size data <=? size b)
  then Ret (firstn (Z.to_nat off) b ++ data
            ++ skipn (Z.to_nat off + length data) b)
  else Trap OutOfBounds.

(** [memcpy(dst + dst_off, src + src_off, n)] where [src] may be [NULL]. *)
Definition memcpy (dst : buffer) (dst_off : Z)
                  (src : option buffer) (src_off : Z) (n : Z) : outcome buffer :=
  match src with
  | None => Trap NullDereference
  | Some s => row <- load s src_off n ;; store dst dst_off row
  end.

(* ================================================================== *)
(** ** Result codes and data *)
(* ================================================================== *)

Inductive HRESULT : Type :=
| S_OK
| E_INVALIDARG
| E_OUTOFMEMORY
| E_FAIL
| E_NOINTERFACE
| WINCODEC_ERR_BADIMAGE
| WINCODEC_ERR_INSUFFICIENTBUFFER
| WINCODEC_ERR_PALETTEUNAVAILABLE
| WINCODEC_ERR_UNSUPPORTEDOPERATION
| WINCODEC_ERR_CODECNOTHUMBNAIL.

Definition kBytesPerPixel : Z := 4.

Record RGBImage : Type := {
  rgb : option buffer;
  width : Z;
  height : Z;
  stride : Z
}.

Record WICRect : Type := {
  X : Z;
  Y : Z;
  Width : Z;
  Height : Z
}.

Record DecodeFrame : Type := {
  image_ : RGBImage
}.

(* ================================================================== *)
(** ** [DecodeFrame::CopyPixels] *)
(* ================================================================== *)

(** [WICRect rect = {0, 0, image_->width, image_->height}; if (prc) rect = *prc;] *)
Definition effective_rect (img : RGBImage) (prc : option WICRect) : WICRect :=
  match prc with
  | Some r => r
  | None => {| X := 0; Y := 0; Width := width img; Height := height img |}
  end.

(** [rect.Width < 0 || rect.Height < 0 || rect.X < 0 || rect.Y < 0] *)
Definition rect_negative (rect : WICRect) : bool :=
  (Width rect <? 0) || (Height rect <? 0) || (X rect <? 0) || (Y rect <? 0).

(** [rect.X + rect.Width > image_->width || rect.Y + rect.Height > image_->height],
    the sums being [int] additions. *)
Definition rect_outside (img : RGBImage) (rect : WICRect) : bool :=
  (int_add (X rect) (Width rect) >? width img)
  || (int_add (Y rect) (Height rect) >? height img).

(** The row loop
    [for (int src_y = rect.Y; src_y < rect.Y + rect.Height; ++src_y)].
    [dst_off] is the distance of [dst_buffer] from [pbBuffer].  The loop runs
    at most [rect.Height] times, which is the fuel [CopyPixels] passes. *)
Fixpoint copy_rows (fuel : nat) (img : RGBImage) (rect : WICRect)
    (src_stride x_offset width_bytes cbStride : Z)
    (src_y dst_off : Z) (dst : buffer) : outcome buffer :=
  if src_y <? int_add (Y rect) (Height rect) then
    match fuel with
    | O => Trap OutOfFuel
    | S fuel' =>
        dst' <- memcpy dst dst_off
                  (rgb img) (int_mul src_y src_stride + x_offset)
                  (to_size_t width_bytes) ;;
        copy_rows fuel' img rect src_stride x_offset width_bytes cbStride
                  (int_add src_y 1) (dst_off + cbStride) dst'
    end
  else Ret dst.

(** The result pairs the returned code with the final content of the
    destination buffer ([None] when [pbBuffer] is [NULL]). *)
Definition CopyPixels (this : DecodeFrame) (prc : option WICRect)
    (cbStride cbBufferSize : Z) (pbBuffer : option buffer)
  : outcome (HRESULT * option buffer) :=
  match pbBuffer with
  | None => Ret (E_INVALIDARG, None)
  | Some dst =>
      let img := image_ this in
      let rect := effective_rect img prc in
      if rect_negative rect then Ret (E_INVALIDARG, Some dst)
      else if rect_outside img rect then Ret (E_INVALIDARG, Some dst)
      else
        pixels_per_row <- udiv cbStride kBytesPerPixel ;;
        if pixels_per_row <? to_UINT (Width rect)
        then Ret (E_INVALIDARG, Some dst)
        else
          rows <- udiv cbBufferSize cbStride ;;
          if rows <? to_UINT (Height rect)
          then Ret (WINCODEC_ERR_INSUFFICIENTBUFFER, Some dst)
          else if (Width rect =? 0) || (Height rect =? 0)
          then Ret (S_OK, Some dst)
          else
            let src_stride := stride img in
            let x_offset := int_mul (X rect) kBytesPerPixel in
            let width_bytes := int_mul (Width rect) kBytesPerPixel in
            dst' <- copy_rows (Z.to_nat (Height rect)) img rect
                      src_stride x_offset width_bytes cbStride
                      (Y rect) 0 dst ;;
            Ret (S_OK, Some dst')
  end.

(** The copy as the specification words it: for each destination row [r] in
    [[0, region.height)], in increasing order, [region.width * 4] bytes from
    source offset [(region.y + r) * image.stride + region.x * 4] to
    destination offset [r * dest_stride].  All arithmetic is unbounded. *)
Definition spec_copy_row (src : buffer) (image_stride : Z) (region : WICRect)
    (dest_stride : Z) (dst : buffer) (r : Z) : outcome buffer :=
  row <- load src ((Y region + r) * image_stride + X region * 4)
              (Width region * 4) ;;
  store dst (r * dest_stride) row.

Fixpoint spec_copy_rows (count : nat) (src : buffer) (image_stride : Z)
    (region : WICRect) (dest_stride : Z) (r : Z) (dst : buffer)
  : outcome buffer :=
  match count with
  | O => Ret dst
  | S count' =>
      dst' <- spec_copy_row src image_stride region dest_stride dst r ;;
      spec_copy_rows count' src image_stride region dest_stride (r + 1) dst'
  end.


(** The invariant of a decoded image as the specification gives it: a
    non-null pixel buffer [src], positive dimensions, [stride = width * 4]
    and [stride * height] readable bytes. *)
Definition spec_decoded_image (img : RGBImage) (src : buffer) : Prop :=
  rgb img = Some src /\
  0 < width img /\ 0 < height img /\
  stride img = width img * 4 /\
  stride img * height img <= size src.

(** The same invariant together with a bound the specification does not
    have: the byte size [stride * height] fits in [int].  The row offset
    [src_y * src_stride] of [CopyPixels] is an [int] product, exact only
    under this bound. *)
Definition decoded_image (img : RGBImage) (src : buffer) : Prop :=
  rgb img = Some src /\
  0 < width img /\ 0 < height img /\
  stride img = width img * 4 /\
  stride img * height img <= size src /\
  stride img * height img <= INT_MAX.

(** Destination offset [off] lies in the bytes written for row [r]. *)
Definition in_dest_row (rect : WICRect) (cbStride r off : Z) : Prop :=
  r * cbStride <= off < r * cbStride + Width rect * 4.

(* ================================================================== *)
(** ** The property getters of [DecodeFrame] *)
(* ================================================================== *)

(** [GetSize]: the result carries the new contents of [*puiWidth] and
    [*puiHeight]. *)
Definition GetSize (this : DecodeFrame) (puiWidth puiHeight : option Z)
  : outcome (HRESULT * option Z * option Z) :=
  match puiWidth, puiHeight with
  | Some _, Some _ =>
      Ret (S_OK, Some (to_UINT (width (image_ this))),
                 Some (to_UINT (height (image_ this))))
  | _, _ => Ret (E_INVALIDARG, puiWidth, puiHeight)
  end.

(** [GetResolution] stores the literal 96 through both pointers without
    testing them. *)
Definition GetResolution (this : DecodeFrame) (pDpiX pDpiY : option Z)
  : outcome (HRESULT * option Z * option Z) :=
  match pDpiX with
  | None => Trap NullDereference
  | Some _ =>
      match pDpiY with
      | None => Trap NullDereference
      | Some _ => Ret (S_OK, Some 96, Some 96)
      end
  end.

Definition CopyPalette (this : DecodeFrame) : HRESULT :=
  WINCODEC_ERR_PALETTEUNAVAILABLE.

Definition GetMetadataQueryReader (this : DecodeFrame) : HRESULT :=
  WINCODEC_ERR_UNSUPPORTEDOPERATION.

Definition GetColorContexts (this : DecodeFrame) (cCount : Z)
    (pcActualCount : option Z) : outcome (HRESULT * option Z) :=
  match pcActualCount with
  | None => Ret (E_INVALIDARG, None)
  | Some _ => Ret (S_OK, Some 0)
  end.

Definition GetThumbnail (this : DecodeFrame) : HRESULT :=
  WINCODEC_ERR_CODECNOTHUMBNAIL.

(* ================================================================== *)
(** ** Interface identifiers and [QueryInterface] *)
(* ================================================================== *)

Record GUID : Type := {
  Data1 : Z;
  Data2 : Z;
  Data3 : Z;
  Data4 : list Z
}.

Definition IsEqualGUID (a b : GUID) : bool :=
  (Data1 a =? Data1 b) && (Data2 a =? Data2 b) && (Data3 a =? Data3 b)
  && (if list_eq_dec Z.eq_dec (Data4 a) (Data4 b) then true else false).

(** What [static_cast<IWICBitmapFrameDecode*>(this)] stores in [*ppvObject]. *)
Inductive interface_pointer : Type :=
| this_as_IWICBitmapFrameDecode.

(** The new content of [*ppvObject] ([None] for [NULL]) and the object after
    the call. *)
Record QueryResult (T : Type) : Type := {
  hr : HRESULT;
  ppvObject_out : option (option interface_pointer);
  this_out : T
}.

Arguments hr {T} _.
Arguments ppvObject_out {T} _.
Arguments this_out {T} _.

Section PlatformHeaders.

(** The identifiers of the platform SDK and the pieces of the classes that
    [decode_frame.h] and the COM base class declare. *)
Variables IID_IUnknown IID_IWICBitmapFrameDecode IID_IWICBitmapSource : GUID.
Variable GUID_WICPixelFormat32bppBGRA : GUID.
Variable DecodeFrame_AddRef : DecodeFrame -> DecodeFrame.
Variable DummyFrame : Type.
Variable DummyFrame_AddRef : DummyFrame -> DummyFrame.

Definition GetPixelFormat (this : DecodeFrame) (pPixelFormat : option GUID)
  : outcome (HRESULT * option GUID) :=
  match pPixelFormat with
  | None => Ret (E_INVALIDARG, None)
  | Some _ => Ret (S_OK, Some GUID_WICPixelFormat32bppBGRA)
  end.

Definition DecodeFrame_QueryInterface (this : DecodeFrame) (riid : GUID)
    (ppvObject : option (option interface_pointer))
  : QueryResult DecodeFrame :=
  match ppvObject with
  | None =>
      {| hr := E_INVALIDARG; ppvObject_out := None; this_out := this |}
  | Some _ =>
      if negb (IsEqualGUID riid IID_IUnknown)
         && negb (IsEqualGUID riid IID_IWICBitmapFrameDecode)
         && negb (IsEqualGUID riid IID_IWICBitmapSource)
      then {| hr := E_NOINTERFACE; ppvObject_out := Some None;
              this_out := this |}
      else {| hr := S_OK;
              ppvObject_out := Some (Some this_as_IWICBitmapFrameDecode);
              this_out := DecodeFrame_AddRef this |}
  end.

Definition DummyFrame_QueryInterface (this : DummyFrame) (riid : GUID)
    (ppvObject : option (option interface_pointer))
  : QueryResult DummyFrame :=
  match ppvObject with
  | None =>
      {| hr := E_INVALIDARG; ppvObject_out := None; this_out := this |}
  | Some _ =>
      if negb (IsEqualGUID riid IID_IUnknown)
         && negb (IsEqualGUID riid IID_IWICBitmapFrameDecode)
      then {| hr := E_NOINTERFACE; ppvObject_out := Some None;
              this_out := this |}
      else {| hr := S_OK;
              ppvObject_out := Some (Some this_as_IWICBitmapFrameDecode);
              this_out := DummyFrame_AddRef this |}
  end.

End PlatformHeaders.

(* ================================================================== *)
(** ** [DecodeFrame::CreateFromVP8Stream] *)
(* ================================================================== *)

(** Live heap allocations. *)
Inductive block : Type :=
| ImageObject
| PixelBuffer (data : buffer)
| FrameObject.

Definition heap : Type := list block.

Definition block_eq_dec (a b : block) : {a = b} + {a <> b}.
Proof. decide equality. apply (list_eq_dec byte_eq_dec). Defined.

(** Deallocation removes the most recent matching allocation. *)
Fixpoint release (b : block) (h : heap) : heap :=
  match h with
  | [] => []
  | x :: t => if block_eq_dec x b then t else x :: release b t
  end.

(** What one call of the external decoder leaves behind: the returned pointer
    and the values then found in [width] and [height]. *)
Record DecoderOutput : Type := {
  decoded_rgb : option buffer;
  decoded_width : Z;
  decoded_height : Z
}.

(** The collaborators of one [CreateFromVP8Stream] call: whether each
    [new (std::nothrow)] succeeds, and the external decoder. *)
Record Environment : Type := {
  new_RGBImage_succeeds : bool;
  WebPDecodeBGRA : buffer -> Z -> DecoderOutput;
  new_DecodeFrame_succeeds : bool
}.

Record CreateResult : Type := {
  create_hr : HRESULT;
  ppOutput : option DecodeFrame;
  decoder_calls : list DecoderOutput;
  heap_out : heap
}.

(** [delete] of an [RGBImage]: [~RGBImage] runs [std::free(rgb)] (a no-op on
    [NULL]), then the object's storage goes. *)
Definition delete_RGBImage (img : RGBImage) (h : heap) : heap :=
  release ImageObject
    (match rgb img with
     | Some data => release (PixelBuffer data) h
     | None => h
     end).

(** Modelled from the spec: [ComPtr] and the reference count of a frame are
    declared in headers that are not under src/.  What [*ppOutput] holds when
    [CreateFromVP8Stream] is called: nothing ([None]), or a frame together
    with the number of references to it. *)
Record held_frame : Type := {
  held : DecodeFrame;
  references : Z
}.

(** Modelled from the spec: the frame owns its image exclusively, so
    destroying the frame deletes the image (and with it the pixel buffer)
    and then gives back the frame's own storage. *)
Definition delete_DecodeFrame (frame : DecodeFrame) (h : heap) : heap :=
  release FrameObject (delete_RGBImage (image_ frame) h).

(** Modelled from the spec: [ppOutput->reset(NULL)] gives up the reference
    [*ppOutput] held; the frame is destroyed when that was the last one. *)
Definition ComPtr_reset_NULL (prior : option held_frame) (h : heap) : heap :=
  match prior with
  | None => h
  | Some p =>
      if references p - 1 =? 0 then delete_DecodeFrame (held p) h else h
  end.

(** [prior] is the content of [*ppOutput] on entry; it is released first, and
    [*ppOutput] is null from then on unless the call succeeds.  [pImage] is
    an [auto_ptr], so every return before [pImage.release()] deletes the
    image.  In [new (std::nothrow) DecodeFrame(pImage.release())] the
    allocation comes first and the constructor argument is evaluated only
    when it succeeded, as C++17 sequences it and as compilers emit it. *)
Definition CreateFromVP8Stream (env : Environment)
    (vp8_bitstream : buffer) (stream_size : Z)
    (prior : option held_frame) (h : heap) : CreateResult :=
  let h0 := ComPtr_reset_NULL prior h in
  if negb (new_RGBImage_succeeds env) then
    {| create_hr := E_OUTOFMEMORY; ppOutput := None;
       decoder_calls := []; heap_out := h0 |}
  else
    let h1 := ImageObject :: h0 in
    let out := WebPDecodeBGRA env vp8_bitstream stream_size in
    let h2 := match decoded_rgb out with
              | Some data => PixelBuffer data :: h1
              | None => h1
              end in
    let pImage := {| rgb := decoded_rgb out;
                     width := decoded_width out;
                     height := decoded_height out;
                     stride := int_mul (decoded_width out) kBytesPerPixel |} in
    let decodedImage := match rgb pImage with Some _ => true | None => false end in
    if negb decodedImage then
      {| create_hr := WINCODEC_ERR_BADIMAGE; ppOutput := None;
         decoder_calls := [out]; heap_out := delete_RGBImage pImage h2 |}
    else if (width pImage <=? 0) || (height pImage <=? 0) then
      {| create_hr := E_FAIL; ppOutput := None;
         decoder_calls := [out]; heap_out := delete_RGBImage pImage h2 |}
    else if negb (new_DecodeFrame_succeeds env) then
      {| create_hr := E_OUTOFMEMORY; ppOutput := None;
         decoder_calls := [out]; heap_out := delete_RGBImage pImage h2 |}
    else
      {| create_hr := S_OK; ppOutput := Some {| image_ := pImage |};
         decoder_calls := [out]; heap_out := FrameObject :: h2 |}.

(* ================================================================== *)
(** ** Sample objects *)
(* ================================================================== *)

Definition byte_of (n : nat) : byte :=
  match Byte.of_N (N.of_nat n) with
  | Some b => b
  | None => x00
  end.

(** A frame over [data] with the stride the decoder computes. *)
Definition frame_of (w h : Z) (data : buffer) : DecodeFrame :=
  {| image_ := {| rgb := Some data; width := w; height := h;
                  stride := w * 4 |} |}.

(** 4 x 2 pixels, byte [i] of the buffer holding the value [i]. *)
Definition pixels_4x2 : buffer := map byte_of (seq 0 32).
Definition frame_4x2 : DecodeFrame := frame_of 4 2 pixels_4x2.

(** 10 x 10 pixels, every byte 1. *)
Definition pixels_10x10 : buffer := repeat x01 400.
Definition frame_10x10 : DecodeFrame := frame_of 10 10 pixels_10x10.

(** A zeroed destination of [n] bytes. *)
Definition blank (n : nat) : buffer := repeat x00 n.

(** The identifiers as the platform SDK defines them. *)
Definition sdk_IID_IUnknown : GUID :=
  {| Data1 := 0x00000000; Data2 := 0x0000; Data3 := 0x0000;
     Data4 := [0xC0; 0x00; 0x00; 0x00; 0x00; 0x00; 0x00; 0x46] |}.
Definition sdk_IID_IWICBitmapFrameDecode : GUID :=
  {| Data1 := 0x3B16811B; Data2 := 0x6A43; Data3 := 0x4EC9;
     Data4 := [0xA8; 0x13; 0x3D; 0x93; 0x0C; 0x13; 0xB9; 0x40] |}.
Definition sdk_IID_IWICBitmapSource : GUID :=
  {| Data1 := 0x00000120; Data2 := 0xA8F2; Data3 := 0x4877;
     Data4 := [0xBA; 0x0A; 0xFD; 0x2B; 0x66; 0x45; 0xFB; 0x94] |}.

(** A decoder that rejects every stream, one that reports a 0 x 3 image, and
    one that yields the 4 x 2 sample. *)
Definition rejecting_decoder (_ : buffer) (_ : Z) : DecoderOutput :=
  {| decoded_rgb := None; decoded_width := 0; decoded_height := 0 |}.
Definition degenerate_decoder (_ : buffer) (_ : Z) : DecoderOutput :=
  {| decoded_rgb := Some [x00]; decoded_width := 0; decoded_height := 3 |}.
Definition sample_decoder (_ : buffer) (_ : Z) : DecoderOutput :=
  {| decoded_rgb := Some pixels_4x2; decoded_width := 4;
     decoded_height := 2 |}.

Definition environment (image_ok : bool)
    (decoder : buffer -> Z -> DecoderOutput) (frame_ok : bool) : Environment :=
  {| new_RGBImage_succeeds := image_ok; WebPDecodeBGRA := decoder;
     new_DecodeFrame_succeeds := frame_ok |}.

(** 1 x 1 pixel. *)
Definition pixels_1x1 : buffer := [x0a; x0b; x0c; x0d].
Definition frame_1x1 : DecodeFrame := frame_of 1 1 pixels_1x1.


(** [*ppOutput] holding the only reference to the 4 x 2 frame, and the heap
    that goes with it. *)
Definition sole_owner_4x2 : option held_frame :=
  Some {| held := frame_4x2; references := 1 |}.
Definition heap_of_4x2 : heap :=
  [FrameObject; PixelBuffer pixels_4x2; ImageObject].

(* ================================================================== *)
(** * Properties *)
(* ================================================================== *)

(** ** Machine arithmetic *)

Lemma wrap_int_small (z : Z) : - 2 ^ 31 <= z <= INT_MAX -> wrap_int z = z.
Proof.
  unfold wrap_int, INT_MAX. intros Hz.
  rewrite Z.mod_small; lia.
Qed.

Lemma wrap_int_range (z : Z) : - 2 ^ 31 <= wrap_int z <= INT_MAX.
Proof.
  unfold wrap_int, INT_MAX.
  pose proof (Z.mod_pos_bound (z + 2 ^ 31) (2 ^ 32) ltac:(lia)). lia.
Qed.

Lemma wrap_int_le (z : Z) : 0 <= z -> wrap_int z <= z.
Proof.
  unfold wrap_int. intros Hz.
  pose proof (Z.mod_le (z + 2 ^ 31) (2 ^ 32) ltac:(lia) ltac:(lia)). lia.
Qed.

Lemma to_UINT_small (z : Z) : is_UINT z -> to_UINT z = z.
Proof.
  unfold is_UINT, UINT_MAX, to_UINT. intros Hz. apply Z.mod_small. lia.
Qed.

Lemma to_size_t_small (z : Z) : 0 <= z <= INT_MAX -> to_size_t z = z.
Proof.
  unfold INT_MAX, to_size_t. intros Hz. apply Z.mod_small. lia.
Qed.

Lemma udiv_nonzero (a b : Z) : b <> 0 -> udiv a b = Ret (a / b).
Proof.
  intros Hb. unfold udiv. destruct (Z.eqb_spec b 0); congruence.
Qed.

(** ** Buffers *)


Lemma load_inside (b : buffer) (off n : Z) :
  0 <= off -> 0 <= n -> off + n <= size b ->
  exists d, load b off n = Ret d.
Proof.
  intros H1 H2 H3. unfold load.
  destruct (Z.leb_spec 0 off); [|lia].
  destruct (Z.leb_spec 0 n); [|lia].
  destruct (Z.leb_spec (off + n) (size b)); [|lia].
  simpl. eauto.
Qed.

Lemma load_bounds (b d : buffer) (off n : Z) :
  load b off n = Ret d -> 0 <= off /\ 0 <= n /\ off + n <= size b.
Proof.
  unfold load.
  destruct (Z.leb_spec 0 off); simpl; [|discriminate].
  destruct (Z.leb_spec 0 n); simpl; [|discriminate].
  destruct (Z.leb_spec (off + n) (size b)); [|discriminate].
  auto.
Qed.

Lemma load_size (b d : buffer) (off n : Z) :
  load b off n = Ret d -> size d = n.
Proof.
  intros H. destruct (load_bounds _ _ _ _ H) as (H1 & H2 & H3).
  unfold load in H.
  destruct ((0 <=? off) && (0 <=? n) && (off + n <=? size b)); [|discriminate].
  injection H as <-. unfold size in *.
  rewrite length_firstn, length_skipn. lia.
Qed.

Lemma byte_at_load (b d : buffer) (off n j : Z) :
  load b off n = Ret d -> 0 <= j < n ->
  byte_at d j = byte_at b (off + j).
Proof.
  intros H Hj. destruct (load_bounds _ _ _ _ H) as (H1 & H2 & H3).
  unfold load in H.
  destruct ((0 <=? off) && (0 <=? n) && (off + n <=? size b)); [|discriminate].
  injection H as <-. unfold byte_at.
  destruct (Z.ltb_spec j 0); [lia|].
  destruct (Z.ltb_spec (off + j) 0); [lia|].
  rewrite nth_error_firstn, nth_error_skipn.
  destruct (Nat.ltb_spec (Z.to_nat j) (Z.to_nat n)); [|lia].
  f_equal. lia.
Qed.

Lemma store_bounds (b d b' : buffer) (off : Z) :
  store b off d = Ret b' -> 0 <= off /\ off + size d <= size b.
Proof.
  unfold store.
  destruct (Z.leb_spec 0 off); simpl; [|discriminate].
  destruct (Z.leb_spec (off + size d) (size b)); [|discriminate].
  auto.
Qed.

Lemma store_inside (b d : buffer) (off : Z) :
  0 <= off -> off + size d <= size b -> exists b', store b off d = Ret b'.
Proof.
  intros H1 H2. unfold store.
  destruct (Z.leb_spec 0 off); [|lia].
  destruct (Z.leb_spec (off + size d) (size b)); [|lia].
  simpl. eauto.
Qed.

Lemma store_result (b d b' : buffer) (off : Z) :
  store b off d = Ret b' ->
  b' = firstn (Z.to_nat off) b ++ d ++ skipn (Z.to_nat off + length d) b.
Proof.
  unfold store.
  destruct ((0 <=? off) && (off + size d <=? size b)); [|discriminate].
  intros H. injection H as <-. reflexivity.
Qed.

Lemma store_size (b d b' : buffer) (off : Z) :
  store b off d = Ret b' -> size b' = size b.
Proof.
  intros H. destruct (store_bounds _ _ _ _ H) as (H1 & H2).
  rewrite (store_result _ _ _ _ H). unfold size in *.
  rewrite !length_app, length_firstn, length_skipn. lia.
Qed.

Lemma byte_at_store_inside (b d b' : buffer) (off j : Z) :
  store b off d = Ret b' -> 0 <= j < size d ->
  byte_at b' (off + j) = byte_at d j.
Proof.
  intros H Hj. destruct (store_bounds _ _ _ _ H) as (H1 & H2).
  rewrite (store_result _ _ _ _ H). unfold byte_at, size in *.
  destruct (Z.ltb_spec (off + j) 0); [lia|].
  destruct (Z.ltb_spec j 0); [lia|].
  assert (Hlen : length (firstn (Z.to_nat off) b) = Z.to_nat off)
    by (rewrite length_firstn; lia).
  rewrite nth_error_app2 by lia.
  rewrite nth_error_app1 by lia.
  f_equal. lia.
Qed.

Lemma byte_at_store_outside (b d b' : buffer) (off o : Z) :
  store b off d = Ret b' -> o < off \/ off + size d <= o ->
  byte_at b' o = byte_at b o.
Proof.
  intros H Ho. destruct (store_bounds _ _ _ _ H) as (H1 & H2).
  rewrite (store_result _ _ _ _ H). unfold byte_at, size in *.
  destruct (Z.ltb_spec o 0); [reflexivity|].
  assert (Hlen : length (firstn (Z.to_nat off) b) = Z.to_nat off)
    by (rewrite length_firstn; lia).
  destruct Ho as [Ho|Ho].
  - rewrite nth_error_app1 by lia.
    rewrite nth_error_firstn.
    destruct (Nat.ltb_spec (Z.to_nat o) (Z.to_nat off)); [reflexivity|lia].
  - rewrite nth_error_app2 by lia.
    rewrite nth_error_app2 by lia.
    rewrite nth_error_skipn. f_equal. lia.
Qed.

(** ** The row loop of [CopyPixels] *)

Section RowLoop.

Variables (img : RGBImage) (src : buffer) (rect : WICRect) (cbStride : Z).

Hypothesis Himage : decoded_image img src.
Hypothesis HX : 0 <= X rect.
Hypothesis HY : 0 <= Y rect.
Hypothesis HW : 0 < Width rect.
Hypothesis HH : 0 < Height rect.
Hypothesis Hright : X rect + Width rect <= width img.
Hypothesis Hbottom : Y rect + Height rect <= height img.
Hypothesis Hpitch : Width rect * 4 <= cbStride.

Local Ltac image_facts :=
  destruct Himage as (Hrgb & Hw & Hh & Hstride & Hsize & Hint).

Lemma row_end_exact : int_add (Y rect) (Height rect) = Y rect + Height rect.
Proof.
  image_facts. unfold int_add. apply wrap_int_small.
  unfold INT_MAX in *. nia.
Qed.

Lemma x_offset_exact : int_mul (X rect) kBytesPerPixel = X rect * 4.
Proof.
  image_facts. unfold int_mul, kBytesPerPixel. apply wrap_int_small.
  unfold INT_MAX in *. nia.
Qed.

Lemma width_bytes_exact :
  to_size_t (int_mul (Width rect) kBytesPerPixel) = Width rect * 4.
Proof.
  image_facts. unfold int_mul, kBytesPerPixel.
  rewrite wrap_int_small by (unfold INT_MAX in *; nia).
  apply to_size_t_small. unfold INT_MAX in *. nia.
Qed.

Lemma row_offset_exact (k : Z) :
  0 <= k < Height rect ->
  int_mul (Y rect + k) (stride img) = (Y rect + k) * stride img.
Proof.
  image_facts. intros Hk. unfold int_mul. apply wrap_int_small.
  unfold INT_MAX in *. nia.
Qed.

Lemma next_row_exact (k : Z) :
  0 <= k < Height rect -> int_add (Y rect + k) 1 = Y rect + (k + 1).
Proof.
  image_facts. intros Hk. unfold int_add.
  rewrite wrap_int_small by (unfold INT_MAX in *; nia). lia.
Qed.

(** The loop of the source performs the copy the specification words,
    row for row. *)
Lemma copy_rows_refines (n : nat) :
  forall (k : Z) (dst : buffer),
    0 <= k -> Z.of_nat n = Height rect - k ->
    copy_rows n img rect (stride img)
              (int_mul (X rect) kBytesPerPixel)
              (int_mul (Width rect) kBytesPerPixel) cbStride
              (Y rect + k) (k * cbStride) dst
    = spec_copy_rows n src (stride img) rect cbStride k dst.
Proof.
  induction n as [|n IH]; intros k dst Hk Hn.
  - simpl. rewrite row_end_exact.
    destruct (Z.ltb_spec (Y rect + k) (Y rect + Height rect)); [lia|reflexivity].
  - cbn [copy_rows spec_copy_rows]. rewrite row_end_exact.
    destruct (Z.ltb_spec (Y rect + k) (Y rect + Height rect)); [|lia].
    assert (Hrow :
      memcpy dst (k * cbStride) (rgb img)
        (int_mul (Y rect + k) (stride img)
         + int_mul (X rect) kBytesPerPixel)
        (to_size_t (int_mul (Width rect) kBytesPerPixel))
      = spec_copy_row src (stride img) rect cbStride dst k).
    { rewrite x_offset_exact, width_bytes_exact, row_offset_exact by lia.
      unfold spec_copy_row, memcpy.
      destruct Himage as (-> & _). reflexivity. }
    rewrite Hrow.
    destruct (spec_copy_row src (stride img) rect cbStride dst k)
      as [dst1|f]; simpl; [|reflexivity].
    rewrite next_row_exact by lia.
    replace (k * cbStride + cbStride) with ((k + 1) * cbStride) by lia.
    apply IH; lia.
Qed.

(** Effect of the worded copy from row [k] on: it succeeds, keeps the size
    of the destination, fills each row from the source rectangle and
    leaves every other byte alone. *)
Lemma spec_copy_rows_effect (n : nat) :
  forall (k : Z) (dst : buffer),
    0 <= k -> k + Z.of_nat n <= Height rect ->
    Height rect * cbStride <= size dst ->
    exists dst',
      spec_copy_rows n src (stride img) rect cbStride k dst = Ret dst' /\
      size dst' = size dst /\
      (forall r j, k <= r < k + Z.of_nat n -> 0 <= j < Width rect * 4 ->
         byte_at dst' (r * cbStride + j)
         = byte_at src ((Y rect + r) * stride img + X rect * 4 + j)) /\
      (forall off,
         (forall r, k <= r < k + Z.of_nat n ->
                    ~ in_dest_row rect cbStride r off) ->
         byte_at dst' off = byte_at dst off).
Proof.
  induction n as [|n IH]; intros k dst Hk Hn Hcap.
  - exists dst. simpl. repeat split; auto. intros; lia.
  - cbn [spec_copy_rows]. unfold spec_copy_row.
    destruct Himage as (Hrgb & Hw & Hh & Hstride & Hsize & Hint).
    destruct (load_inside src ((Y rect + k) * stride img + X rect * 4)
                (Width rect * 4)) as [row Hrow]; [nia|lia|nia|].
    rewrite Hrow. simpl.
    pose proof (load_size _ _ _ _ Hrow) as Hrowsz.
    destruct (store_inside dst row (k * cbStride)) as [dst1 Hst]; [nia|nia|].
    rewrite Hst. simpl.
    pose proof (store_size _ _ _ _ Hst) as Hsz1.
    destruct (IH (k + 1) dst1) as (dst' & Hrun & Hsz & Hrows & Hrest);
      [lia|lia|lia|].
    exists dst'. split; [exact Hrun|]. split; [lia|]. split.
    + intros r j Hr Hj.
      destruct (Z.eq_dec r k) as [->|Hne].
      * rewrite Hrest.
        -- rewrite (byte_at_store_inside _ _ _ _ _ Hst) by lia.
           rewrite (byte_at_load _ _ _ _ _ Hrow) by lia.
           reflexivity.
        -- intros r' Hr'. unfold in_dest_row. nia.
      * apply Hrows; lia.
    + intros off Hoff.
      rewrite Hrest.
      * apply (byte_at_store_outside _ _ _ _ _ Hst).
        specialize (Hoff k ltac:(lia)). unfold in_dest_row in Hoff. lia.
      * intros r Hr. apply Hoff. lia.
Qed.

End RowLoop.

(** ** [CopyPixels]: termination *)

Lemma memcpy_fuel_free (dst : buffer) (dst_off : Z) (src : option buffer)
    (src_off n : Z) :
  memcpy dst dst_off src src_off n <> Trap OutOfFuel.
Proof.
  unfold memcpy, load, store. destruct src as [s|]; [|discriminate].
  destruct (_ && _); simpl; [|discriminate].
  destruct (_ && _); discriminate.
Qed.

Lemma copy_rows_fuel (n : nat) (img : RGBImage) (rect : WICRect)
    (src_stride x_offset width_bytes cbStride : Z) :
  forall (src_y dst_off : Z) (dst : buffer),
    0 <= src_y ->
    int_add (Y rect) (Height rect) - src_y <= Z.of_nat n ->
    copy_rows n img rect src_stride x_offset width_bytes cbStride
              src_y dst_off dst <> Trap OutOfFuel.
Proof.
  induction n as [|n IH]; intros src_y dst_off dst Hy Hn; cbn [copy_rows];
    destruct (Z.ltb_spec src_y (int_add (Y rect) (Height rect)));
    try discriminate; [lia|].
  pose proof (memcpy_fuel_free dst dst_off (rgb img)
                (int_mul src_y src_stride + x_offset)
                (to_size_t width_bytes)) as Hm.
  destruct (memcpy _ _ _ _ _) as [dst1|f]; simpl; [|congruence].
  pose proof (wrap_int_range (Y rect + Height rect)) as Hr.
  unfold int_add in *.
  rewrite (wrap_int_small (src_y + 1)) by (unfold INT_MAX in *; lia).
  apply IH; lia.
Qed.

(** The fuel handed to the row loop always suffices: [CopyPixels] returns a
    code or faults, for every input. *)
Lemma CopyPixels_fuel_suffices (this : DecodeFrame) (prc : option WICRect)
    (cbStride cbBufferSize : Z) (pbBuffer : option buffer) :
  CopyPixels this prc cbStride cbBufferSize pbBuffer <> Trap OutOfFuel.
Proof.
  unfold CopyPixels. destruct pbBuffer as [dst|]; [|discriminate].
  set (rect := effective_rect (image_ this) prc).
  destruct (rect_negative rect) eqn:Hneg; [discriminate|].
  destruct (rect_outside (image_ this) rect); [discriminate|].
  unfold udiv at 1. simpl.
  destruct (_ <? _); [discriminate|].
  unfold udiv. destruct (cbStride =? 0); simpl; [discriminate|].
  destruct (_ <? _); [discriminate|].
  destruct (_ || _); [discriminate|].
  unfold rect_negative in Hneg.
  repeat (apply orb_false_elim in Hneg; destruct Hneg as [Hneg ?]).
  pose proof (copy_rows_fuel (Z.to_nat (Height rect)) (image_ this) rect
                (stride (image_ this))
                (int_mul (X rect) kBytesPerPixel)
                (int_mul (Width rect) kBytesPerPixel) cbStride
                (Y rect) 0 dst) as Hloop.
  destruct (copy_rows _ _ _ _ _ _ _ _ _ _) as [dst'|f]; simpl; [discriminate|].
  intros Hf. apply Hloop; [lia| |congruence].
  pose proof (wrap_int_le (Y rect + Height rect)). unfold int_add. lia.
Qed.

(** ** [CopyPixels]: a valid, non-empty request *)

Lemma decoded_image_intro (img : RGBImage) (src : buffer) :
  spec_decoded_image img src ->
  stride img * height img <= INT_MAX ->
  decoded_image img src.
Proof.
  intros (Hrgb & Hw & Hh & Hstr & Hsize) Hfit.
  unfold decoded_image. auto 6.
Qed.






(** ** [CopyPixels]: the bounds check *)

(** X1. When both sums fit in [int], a region that leaves the image is rejected
    with [E_INVALIDARG] and the destination is returned as it was. *)
Lemma CopyPixels_rejects_outside
    (this : DecodeFrame) (prc : option WICRect) (rect : WICRect)
    (cbStride cbBufferSize : Z) (dst : buffer) :
  rect = effective_rect (image_ this) prc ->
  0 <= X rect -> 0 <= Y rect -> 0 <= Width rect -> 0 <= Height rect ->
  X rect + Width rect <= INT_MAX -> Y rect + Height rect <= INT_MAX ->
  X rect + Width rect > width (image_ this)
  \/ Y rect + Height rect > height (image_ this) ->
  CopyPixels this prc cbStride cbBufferSize (Some dst)
    = Ret (E_INVALIDARG, Some dst).
Proof.
  intros Hrect HX HY HW HH Hxs Hys Hout.
  unfold CopyPixels. rewrite <- Hrect.
  destruct (rect_negative rect); [reflexivity|].
  assert (Hcheck : rect_outside (image_ this) rect = true).
  { unfold rect_outside, int_add.
    rewrite !wrap_int_small by (unfold INT_MAX in *; lia).
    rewrite !Z.gtb_ltb. apply orb_true_iff.
    destruct Hout as [Hout|Hout]; [left|right]; apply Z.ltb_lt; lia. }
  rewrite Hcheck. reflexivity.
Qed.

(** C2. The sums of the bounds check are [int] additions and wrap.  On the
    10 x 10 image the region [{0, 2147483647, 1, 1}] has
    [Y + Height > height], yet the call returns [S_OK]; the region
    [{2147483647, 0, 1, 1}] has [X + Width > width] and the call goes on to
    read outside the pixel buffer. *)
Theorem CopyPixels_bounds_check_wraps :
  Y {| X := 0; Y := 2147483647; Width := 1; Height := 1 |}
  + Height {| X := 0; Y := 2147483647; Width := 1; Height := 1 |}
    > height (image_ frame_10x10) /\
  CopyPixels frame_10x10
    (Some {| X := 0; Y := 2147483647; Width := 1; Height := 1 |}) 4 4
    (Some (blank 4)) = Ret (S_OK, Some (blank 4)) /\
  X {| X := 2147483647; Y := 0; Width := 1; Height := 1 |}
  + Width {| X := 2147483647; Y := 0; Width := 1; Height := 1 |}
    > width (image_ frame_10x10) /\
  CopyPixels frame_10x10
    (Some {| X := 2147483647; Y := 0; Width := 1; Height := 1 |}) 4 4
    (Some (blank 4)) = Trap OutOfBounds.
Proof.
  repeat split; vm_compute; reflexivity.
Qed.

(** ** [CopyPixels]: a zero destination stride *)

(** C3. With [cbStride = 0], a request that gets past the stride check (its
    width is then zero) reaches [cbBufferSize / cbStride] with nothing in
    front of the division: the call faults instead of returning a code. *)
Theorem CopyPixels_zero_stride_faults
    (this : DecodeFrame) (prc : option WICRect) (rect : WICRect)
    (cbBufferSize : Z) (dst : buffer) :
  rect = effective_rect (image_ this) prc ->
  rect_negative rect = false ->
  rect_outside (image_ this) rect = false ->
  (0 / kBytesPerPixel <? to_UINT (Width rect)) = false ->
  CopyPixels this prc 0 cbBufferSize (Some dst) = Trap DivideByZero.
Proof.
  intros Hrect Hneg Hout Hpitch.
  unfold CopyPixels. rewrite <- Hrect, Hneg, Hout.
  rewrite udiv_nonzero by (unfold kBytesPerPixel; lia).
  cbn [bind]. rewrite Hpitch. reflexivity.
Qed.

Lemma CopyPixels_zero_stride_faults_sample :
  CopyPixels frame_10x10
    (Some {| X := 0; Y := 0; Width := 0; Height := 0 |}) 0 0
    (Some (blank 4)) = Trap DivideByZero.
Proof.
  apply (CopyPixels_zero_stride_faults frame_10x10
           (Some {| X := 0; Y := 0; Width := 0; Height := 0 |})
           {| X := 0; Y := 0; Width := 0; Height := 0 |} 0 (blank 4));
    reflexivity.
Defined.

(** ** [CopyPixels]: an empty region *)

(** The empty-region test comes after the stride and capacity checks: a
    region of width 0 and height 5 inside the 10 x 10 image, with a 4-byte
    destination of stride 4, is answered [WINCODEC_ERR_INSUFFICIENTBUFFER]. *)
Lemma CopyPixels_empty_region_can_fail :
  ~ (forall (this : DecodeFrame) (src : buffer) (prc : option WICRect)
            (rect : WICRect) (cbStride cbBufferSize : Z) (dst : buffer),
       decoded_image (image_ this) src ->
       rect = effective_rect (image_ this) prc ->
       0 <= X rect -> 0 <= Y rect -> 0 <= Width rect -> 0 <= Height rect ->
       X rect + Width rect <= width (image_ this) ->
       Y rect + Height rect <= height (image_ this) ->
       Width rect = 0 \/ Height rect = 0 ->
       is_UINT cbStride -> is_UINT cbBufferSize ->
       cbBufferSize <= size dst ->
       CopyPixels this prc cbStride cbBufferSize (Some dst)
         = Ret (S_OK, Some dst)).
Proof.
  intros Hclaim.
  specialize (Hclaim frame_10x10 pixels_10x10
                (Some {| X := 0; Y := 0; Width := 0; Height := 5 |})
                {| X := 0; Y := 0; Width := 0; Height := 5 |} 4 4 (blank 4)).
  assert (Hrun :
    CopyPixels frame_10x10
      (Some {| X := 0; Y := 0; Width := 0; Height := 5 |}) 4 4
      (Some (blank 4))
    = Ret (WINCODEC_ERR_INSUFFICIENTBUFFER, Some (blank 4)))
    by reflexivity.
  rewrite Hrun in Hclaim.
  assert (Himpossible :
    Ret (WINCODEC_ERR_INSUFFICIENTBUFFER, Some (blank 4))
    = Ret (S_OK, Some (blank 4))); [|discriminate Himpossible].
  apply Hclaim.
  - repeat split; vm_compute; congruence.
  - reflexivity.
  - vm_compute; congruence.
  - vm_compute; congruence.
  - vm_compute; congruence.
  - vm_compute; congruence.
  - vm_compute; congruence.
  - vm_compute; congruence.
  - left; reflexivity.
  - split; vm_compute; congruence.
  - split; vm_compute; congruence.
  - vm_compute; congruence.
Qed.

(** C4 (as the code has it). An empty region inside the image, with a
    non-zero destination stride, is judged by the stride and capacity checks
    like any other: [E_INVALIDARG] when [cbStride / 4 < Width],
    [WINCODEC_ERR_INSUFFICIENTBUFFER] when [cbBufferSize / cbStride < Height],
    and [S_OK] otherwise.  In all three cases no byte is written. *)
Theorem CopyPixels_empty_region
    (this : DecodeFrame) (src : buffer) (prc : option WICRect) (rect : WICRect)
    (cbStride cbBufferSize : Z) (dst : buffer) :
  decoded_image (image_ this) src ->
  rect = effective_rect (image_ this) prc ->
  0 <= X rect -> 0 <= Y rect -> 0 <= Width rect -> 0 <= Height rect ->
  X rect + Width rect <= width (image_ this) ->
  Y rect + Height rect <= height (image_ this) ->
  Width rect = 0 \/ Height rect = 0 ->
  cbStride <> 0 ->
  CopyPixels this prc cbStride cbBufferSize (Some dst)
    = Ret (if cbStride / 4 <? Width rect then E_INVALIDARG
           else if cbBufferSize / cbStride <? Height rect
                then WINCODEC_ERR_INSUFFICIENTBUFFER
                else S_OK,
           Some dst).
Proof.
  intros Himage Hrect HX HY HW HH Hright Hbottom Hempty Hs.
  destruct Himage as (Hrgb & Hw & Hh & Hstr & Hsize & Hint).
  unfold CopyPixels. rewrite <- Hrect.
  assert (Hneg : rect_negative rect = false).
  { unfold rect_negative.
    destruct (Z.ltb_spec (Width rect) 0); [lia|].
    destruct (Z.ltb_spec (Height rect) 0); [lia|].
    destruct (Z.ltb_spec (X rect) 0); [lia|].
    destruct (Z.ltb_spec (Y rect) 0); [lia|reflexivity]. }
  assert (Hout : rect_outside (image_ this) rect = false).
  { unfold rect_outside, int_add.
    rewrite !wrap_int_small by (unfold INT_MAX in *; nia).
    rewrite !Z.gtb_ltb.
    destruct (Z.ltb_spec (width (image_ this)) (X rect + Width rect)); [lia|].
    destruct (Z.ltb_spec (height (image_ this)) (Y rect + Height rect));
      [lia|reflexivity]. }
  rewrite Hneg, Hout.
  rewrite !udiv_nonzero by (unfold kBytesPerPixel; lia).
  cbn [bind]. unfold kBytesPerPixel.
  rewrite !to_UINT_small by (unfold is_UINT, UINT_MAX, INT_MAX in *; nia).
  destruct (cbStride / 4 <? Width rect); [reflexivity|].
  destruct (cbBufferSize / cbStride <? Height rect); [reflexivity|].
  assert (Hzero : (Width rect =? 0) || (Height rect =? 0) = true).
  { apply orb_true_iff.
    destruct Hempty as [E|E]; [left|right]; apply Z.eqb_eq; exact E. }
  rewrite Hzero. reflexivity.
Qed.

Lemma CopyPixels_empty_region_sample :
  CopyPixels frame_10x10
    (Some {| X := 3; Y := 10; Width := 7; Height := 0 |}) 28 0
    (Some (blank 4)) = Ret (S_OK, Some (blank 4)).
Proof.
  apply (CopyPixels_empty_region frame_10x10 pixels_10x10
           (Some {| X := 3; Y := 10; Width := 7; Height := 0 |})
           {| X := 3; Y := 10; Width := 7; Height := 0 |} 28 0 (blank 4)).
  - repeat split; vm_compute; congruence.
  - reflexivity.
  - vm_compute; congruence.
  - vm_compute; congruence.
  - vm_compute; congruence.
  - vm_compute; congruence.
  - vm_compute; congruence.
  - vm_compute; congruence.
  - right; reflexivity.
  - discriminate.
Defined.

(** ** [CopyPixels]: failures write nothing *)

(** C5. Whenever [CopyPixels] returns a code other than [S_OK], that code is
    [E_INVALIDARG] or [WINCODEC_ERR_INSUFFICIENTBUFFER] and the destination
    is exactly what the caller passed: each failing return precedes the row
    loop. *)
Theorem CopyPixels_failure_writes_nothing
    (this : DecodeFrame) (prc : option WICRect) (cbStride cbBufferSize : Z)
    (pbBuffer : option buffer) (code : HRESULT) (out : option buffer) :
  CopyPixels this prc cbStride cbBufferSize pbBuffer = Ret (code, out) ->
  code <> S_OK ->
  out = pbBuffer /\
  (code = E_INVALIDARG \/ code = WINCODEC_ERR_INSUFFICIENTBUFFER).
Proof.
  unfold CopyPixels. intros Hrun Hcode.
  destruct pbBuffer as [dst|].
  2:{ injection Hrun as <- <-. auto. }
  destruct (rect_negative _).
  { injection Hrun as <- <-. auto. }
  destruct (rect_outside _ _).
  { injection Hrun as <- <-. auto. }
  destruct (udiv cbStride kBytesPerPixel) as [q|f]; [|discriminate].
  cbn [bind] in Hrun.
  destruct (q <? _).
  { injection Hrun as <- <-. auto. }
  destruct (udiv cbBufferSize cbStride) as [q'|f]; [|discriminate].
  cbn [bind] in Hrun.
  destruct (q' <? _).
  { injection Hrun as <- <-. auto. }
  destruct (_ || _).
  { injection Hrun as <- <-. congruence. }
  destruct (copy_rows _ _ _ _ _ _ _ _ _ _) as [dst'|f]; [|discriminate].
  cbn [bind] in Hrun. injection Hrun as <- <-. congruence.
Qed.

(** The scenario of the specification: the region [{5, 5, 10, 10}] on the
    10 x 10 image. *)
Lemma CopyPixels_failure_writes_nothing_sample :
  CopyPixels frame_10x10
    (Some {| X := 5; Y := 5; Width := 10; Height := 10 |}) 40 400
    (Some (blank 400)) = Ret (E_INVALIDARG, Some (blank 400)) /\
  Some (blank 400) = Some (blank 400) /\
  (E_INVALIDARG = E_INVALIDARG
   \/ E_INVALIDARG = WINCODEC_ERR_INSUFFICIENTBUFFER).
Proof.
  split; [reflexivity|].
  apply (CopyPixels_failure_writes_nothing frame_10x10
           (Some {| X := 5; Y := 5; Width := 10; Height := 10 |}) 40 400
           (Some (blank 400)) E_INVALIDARG (Some (blank 400)));
    [reflexivity|discriminate].
Defined.

(** ** [CreateFromVP8Stream] *)

Lemma delete_RGBImage_fresh (out : DecoderOutput) (st : Z) (h : heap) :
  delete_RGBImage
    {| rgb := decoded_rgb out; width := decoded_width out;
       height := decoded_height out; stride := st |}
    (match decoded_rgb out with
     | Some data => PixelBuffer data :: ImageObject :: h
     | None => ImageObject :: h
     end) = h.
Proof.
  unfold delete_RGBImage. cbn [rgb].
  destruct (decoded_rgb out) as [data|]; cbn [release].
  - destruct (block_eq_dec (PixelBuffer data) (PixelBuffer data));
      [|congruence].
    cbn [release].
    destruct (block_eq_dec ImageObject ImageObject); congruence.
  - destruct (block_eq_dec ImageObject ImageObject); congruence.
Qed.

(** C6. [WINCODEC_ERR_BADIMAGE] is returned exactly when the decoder was run
    and yielded no buffer, whatever dimensions it left.  When it yielded a
    buffer with [width <= 0] or [height <= 0] the result is [E_FAIL], no
    frame is handed out, and the heap is the one the initial release of
    [*ppOutput] left: nothing allocated during the call is still live, so
    the yielded buffer has been freed. *)
Theorem CreateFromVP8Stream_failure_classes
    (env : Environment) (vp8_bitstream : buffer) (stream_size : Z)
    (prior : option held_frame) (h : heap) :
  (create_hr (CreateFromVP8Stream env vp8_bitstream stream_size prior h)
     = WINCODEC_ERR_BADIMAGE
   <-> exists out,
         decoder_calls (CreateFromVP8Stream env vp8_bitstream stream_size prior h)
           = [out] /\
         decoded_rgb out = None) /\
  (forall out data,
     decoder_calls (CreateFromVP8Stream env vp8_bitstream stream_size prior h)
       = [out] ->
     decoded_rgb out = Some data ->
     decoded_width out <= 0 \/ decoded_height out <= 0 ->
     create_hr (CreateFromVP8Stream env vp8_bitstream stream_size prior h) = E_FAIL /\
     ppOutput (CreateFromVP8Stream env vp8_bitstream stream_size prior h) = None /\
     heap_out (CreateFromVP8Stream env vp8_bitstream stream_size prior h)
       = ComPtr_reset_NULL prior h).
Proof.
  unfold CreateFromVP8Stream.
  destruct (new_RGBImage_succeeds env); cbn [negb].
  2:{ split.
      - split; [discriminate|]. intros (out & Hcall & _). discriminate.
      - intros out data Hcall. discriminate. }
  set (out0 := WebPDecodeBGRA env vp8_bitstream stream_size).
  cbn [rgb width height].
  destruct (decoded_rgb out0) as [data0|] eqn:Hrgb; cbn [negb].
  - destruct ((decoded_width out0 <=? 0) || (decoded_height out0 <=? 0))
      eqn:Hdim.
    + split.
      * split; [discriminate|]. intros (out & Hcall & Hnone).
        cbn in Hcall. injection Hcall as <-. congruence.
      * intros out data Hcall Hdata _. cbn.
        repeat split.
        pose proof (delete_RGBImage_fresh out0
                      (int_mul (decoded_width out0) kBytesPerPixel)
                      (ComPtr_reset_NULL prior h)) as Hd.
        rewrite Hrgb in Hd. exact Hd.
    + apply orb_false_elim in Hdim. destruct Hdim as [Hw0 Hh0].
      apply Z.leb_gt in Hw0. apply Z.leb_gt in Hh0.
      destruct (new_DecodeFrame_succeeds env); cbn [negb]; split.
      * split; [discriminate|]. intros (out & Hcall & Hnone).
        cbn in Hcall. injection Hcall as <-. congruence.
      * intros out data Hcall _ Hbad. cbn in Hcall.
        injection Hcall as <-. lia.
      * split; [discriminate|]. intros (out & Hcall & Hnone).
        cbn in Hcall. injection Hcall as <-. congruence.
      * intros out data Hcall _ Hbad. cbn in Hcall.
        injection Hcall as <-. lia.
  - split.
    + split; [|reflexivity]. intros _. exists out0. auto.
    + intros out data Hcall Hdata _. cbn in Hcall.
      injection Hcall as <-. congruence.
Qed.

(** The second call starts with [*ppOutput] owning the 4 x 2 frame: that
    frame is released, and nothing of the failed decode stays. *)
Lemma CreateFromVP8Stream_failure_classes_sample :
  create_hr (CreateFromVP8Stream (environment true rejecting_decoder true)
               [x00] 1 None [FrameObject]) = WINCODEC_ERR_BADIMAGE /\
  create_hr (CreateFromVP8Stream (environment true degenerate_decoder true)
               [x00] 1 sole_owner_4x2 heap_of_4x2) = E_FAIL /\
  ppOutput (CreateFromVP8Stream (environment true degenerate_decoder true)
              [x00] 1 sole_owner_4x2 heap_of_4x2) = None /\
  heap_out (CreateFromVP8Stream (environment true degenerate_decoder true)
              [x00] 1 sole_owner_4x2 heap_of_4x2) = [].
Proof.
  split.
  - apply (proj1 (CreateFromVP8Stream_failure_classes
                    (environment true rejecting_decoder true)
                    [x00] 1 None [FrameObject])).
    exists (rejecting_decoder [x00] 1). split; reflexivity.
  - apply (proj2 (CreateFromVP8Stream_failure_classes
                    (environment true degenerate_decoder true)
                    [x00] 1 sole_owner_4x2 heap_of_4x2)
             (degenerate_decoder [x00] 1) [x00]).
    + reflexivity.
    + reflexivity.
    + left. vm_compute. congruence.
Defined.

(** C7. Every return of [CreateFromVP8Stream] other than [S_OK] carries one
    of the three failure codes, leaves [*ppOutput] null and leaves the heap
    as the initial release of [*ppOutput] left it: the image object and any
    decoded pixel buffer of this call have been released, and the frame
    [*ppOutput] held before is no longer referenced by it. *)
Theorem CreateFromVP8Stream_failure_leaves_nothing
    (env : Environment) (vp8_bitstream : buffer) (stream_size : Z)
    (prior : option held_frame) (h : heap) :
  create_hr (CreateFromVP8Stream env vp8_bitstream stream_size prior h) <> S_OK ->
  (create_hr (CreateFromVP8Stream env vp8_bitstream stream_size prior h)
     = WINCODEC_ERR_BADIMAGE
   \/ create_hr (CreateFromVP8Stream env vp8_bitstream stream_size prior h) = E_FAIL
   \/ create_hr (CreateFromVP8Stream env vp8_bitstream stream_size prior h)
      = E_OUTOFMEMORY) /\
  ppOutput (CreateFromVP8Stream env vp8_bitstream stream_size prior h) = None /\
  heap_out (CreateFromVP8Stream env vp8_bitstream stream_size prior h)
  = ComPtr_reset_NULL prior h.
Proof.
  unfold CreateFromVP8Stream.
  destruct (new_RGBImage_succeeds env); cbn [negb]; [|cbn; auto].
  set (out0 := WebPDecodeBGRA env vp8_bitstream stream_size).
  cbn [rgb width height].
  pose proof (delete_RGBImage_fresh out0
                (int_mul (decoded_width out0) kBytesPerPixel)
                (ComPtr_reset_NULL prior h)) as Hd.
  destruct (decoded_rgb out0) as [data0|]; cbn [negb]; [|cbn; auto].
  destruct ((decoded_width out0 <=? 0) || (decoded_height out0 <=? 0));
    [cbn; auto|].
  destruct (new_DecodeFrame_succeeds env); cbn [negb]; [|cbn; auto].
  cbn. congruence.
Qed.

(** [*ppOutput] owns the 4 x 2 frame on entry and the frame allocation
    fails: the old frame and the new image are both gone. *)
Lemma CreateFromVP8Stream_failure_leaves_nothing_sample :
  (create_hr (CreateFromVP8Stream (environment true sample_decoder false)
                [x00] 1 sole_owner_4x2 heap_of_4x2) = WINCODEC_ERR_BADIMAGE
   \/ create_hr (CreateFromVP8Stream (environment true sample_decoder false)
                   [x00] 1 sole_owner_4x2 heap_of_4x2) = E_FAIL
   \/ create_hr (CreateFromVP8Stream (environment true sample_decoder false)
                   [x00] 1 sole_owner_4x2 heap_of_4x2) = E_OUTOFMEMORY) /\
  ppOutput (CreateFromVP8Stream (environment true sample_decoder false)
              [x00] 1 sole_owner_4x2 heap_of_4x2) = None /\
  heap_out (CreateFromVP8Stream (environment true sample_decoder false)
              [x00] 1 sole_owner_4x2 heap_of_4x2) = [].
Proof.
  apply (CreateFromVP8Stream_failure_leaves_nothing
           (environment true sample_decoder false) [x00] 1
           sole_owner_4x2 heap_of_4x2).
  vm_compute. discriminate.
Defined.

(** X16. A successful decode hands out a frame over the decoded buffer, with
    positive dimensions and the stride computed as the [int] product
    [width * 4]; on top of the heap that the initial release of [*ppOutput]
    left, exactly three allocations are added: the image object, the
    decoder's pixel buffer and the frame. *)
Lemma CreateFromVP8Stream_success
    (env : Environment) (vp8_bitstream : buffer) (stream_size : Z)
    (prior : option held_frame) (h : heap) :
  create_hr (CreateFromVP8Stream env vp8_bitstream stream_size prior h) = S_OK ->
  exists frame data,
    ppOutput (CreateFromVP8Stream env vp8_bitstream stream_size prior h)
      = Some frame /\
    rgb (image_ frame) = Some data /\
    0 < width (image_ frame) /\ 0 < height (image_ frame) /\
    stride (image_ frame) = int_mul (width (image_ frame)) kBytesPerPixel /\
    heap_out (CreateFromVP8Stream env vp8_bitstream stream_size prior h)
      = FrameObject :: PixelBuffer data :: ImageObject
        :: ComPtr_reset_NULL prior h.
Proof.
  unfold CreateFromVP8Stream.
  destruct (new_RGBImage_succeeds env); cbn [negb]; [|discriminate].
  set (out0 := WebPDecodeBGRA env vp8_bitstream stream_size).
  cbn [rgb width height].
  destruct (decoded_rgb out0) as [data0|] eqn:Hrgb; cbn [negb];
    [|discriminate].
  destruct ((decoded_width out0 <=? 0) || (decoded_height out0 <=? 0))
    eqn:Hdim; [discriminate|].
  destruct (new_DecodeFrame_succeeds env); cbn [negb]; [|discriminate].
  intros _. apply orb_false_elim in Hdim. destruct Hdim as [Hw0 Hh0].
  apply Z.leb_gt in Hw0. apply Z.leb_gt in Hh0.
  eexists. exists data0. cbn. repeat split; assumption.
Qed.

(** ** Null output pointers *)

(** C8. [GetResolution] stores through [pDpiX] and [pDpiY] without testing
    them: with either pointer null the call faults instead of returning
    [E_INVALIDARG]. *)
Theorem GetResolution_null_pointer_faults (this : DecodeFrame) (p : option Z) :
  GetResolution this None p = Trap NullDereference /\
  GetResolution this (Some 0) None = Trap NullDereference.
Proof.
  split; reflexivity.
Qed.

(** X13. The other operations with a required output pointer do test it:
    with that pointer null they return [E_INVALIDARG] and store nothing,
    not even through the second pointer of [GetSize]. *)
Lemma null_pointer_rejected_elsewhere
    (GUID_WICPixelFormat32bppBGRA : GUID)
    (this : DecodeFrame) (p : option Z) (prc : option WICRect)
    (cCount cbStride cbBufferSize : Z) :
  GetSize this None p = Ret (E_INVALIDARG, None, p) /\
  GetSize this p None = Ret (E_INVALIDARG, p, None) /\
  GetPixelFormat GUID_WICPixelFormat32bppBGRA this None
    = Ret (E_INVALIDARG, None) /\
  GetColorContexts this cCount None = Ret (E_INVALIDARG, None) /\
  CopyPixels this prc cbStride cbBufferSize None = Ret (E_INVALIDARG, None).
Proof.
  repeat split; destruct p; reflexivity.
Qed.

(** ** [QueryInterface] *)

Lemma IsEqualGUID_true (a b : GUID) : IsEqualGUID a b = true <-> a = b.
Proof.
  unfold IsEqualGUID. destruct a as [a1 a2 a3 a4], b as [b1 b2 b3 b4].
  cbn [Data1 Data2 Data3 Data4].
  destruct (list_eq_dec Z.eq_dec a4 b4) as [E4|N4].
  - rewrite !andb_true_iff, !Z.eqb_eq. split.
    + intros [[[E1 E2] E3] _]. congruence.
    + intros E. injection E as E1 E2 E3 _. auto.
  - rewrite !andb_true_iff. split.
    + intros [_ F]. discriminate.
    + intros E. injection E as _ _ _ E4. contradiction.
Qed.

Lemma IsEqualGUID_false (a b : GUID) : IsEqualGUID a b = false <-> a <> b.
Proof.
  pose proof (IsEqualGUID_true a b) as H.
  destruct (IsEqualGUID a b); split; intros F; try congruence.
  - exfalso. apply F. apply H. reflexivity.
  - intros E. apply H in E. discriminate.
Qed.

Section QueryInterfaceProperties.

Context (IID_IUnknown IID_IWICBitmapFrameDecode IID_IWICBitmapSource : GUID).
Context (DecodeFrame_AddRef : DecodeFrame -> DecodeFrame).
Context (DummyFrame : Type) (DummyFrame_AddRef : DummyFrame -> DummyFrame).

Local Abbreviation real_query :=
  (DecodeFrame_QueryInterface IID_IUnknown IID_IWICBitmapFrameDecode
     IID_IWICBitmapSource DecodeFrame_AddRef).
Local Abbreviation dummy_query :=
  (DummyFrame_QueryInterface IID_IUnknown IID_IWICBitmapFrameDecode
     DummyFrame DummyFrame_AddRef).

Lemma DecodeFrame_QueryInterface_accepts
    (this : DecodeFrame) (riid : GUID) (old : option interface_pointer) :
  riid = IID_IUnknown \/ riid = IID_IWICBitmapFrameDecode
  \/ riid = IID_IWICBitmapSource ->
  hr (real_query this riid (Some old)) = S_OK.
Proof.
  intros Hin. unfold DecodeFrame_QueryInterface.
  assert (Hany :
    negb (IsEqualGUID riid IID_IUnknown)
    && negb (IsEqualGUID riid IID_IWICBitmapFrameDecode)
    && negb (IsEqualGUID riid IID_IWICBitmapSource) = false).
  { destruct Hin as [E|[E|E]]; apply IsEqualGUID_true in E; rewrite E;
      cbn [negb andb]; rewrite ?andb_false_r; reflexivity. }
  rewrite Hany. reflexivity.
Qed.

(** C9. With a non-null [ppvObject], the query on a decoded frame either
    is for one of [IID_IUnknown], [IID_IWICBitmapFrameDecode],
    [IID_IWICBitmapSource] and returns [S_OK] with the frame stored in
    [*ppvObject] after one [AddRef]; or it is for none of them and returns
    [E_NOINTERFACE] with [*ppvObject] null and the frame untouched. *)
Theorem DecodeFrame_QueryInterface_supported_set
    (this : DecodeFrame) (riid : GUID) (old : option interface_pointer) :
  ((riid = IID_IUnknown \/ riid = IID_IWICBitmapFrameDecode
    \/ riid = IID_IWICBitmapSource) /\
   hr (real_query this riid (Some old)) = S_OK /\
   ppvObject_out (real_query this riid (Some old))
     = Some (Some this_as_IWICBitmapFrameDecode) /\
   this_out (real_query this riid (Some old)) = DecodeFrame_AddRef this)
  \/
  (riid <> IID_IUnknown /\ riid <> IID_IWICBitmapFrameDecode /\
   riid <> IID_IWICBitmapSource /\
   hr (real_query this riid (Some old)) = E_NOINTERFACE /\
   ppvObject_out (real_query this riid (Some old)) = Some None /\
   this_out (real_query this riid (Some old)) = this).
Proof.
  unfold DecodeFrame_QueryInterface.
  destruct (IsEqualGUID riid IID_IUnknown) eqn:E1;
    [apply IsEqualGUID_true in E1; left; cbn; auto|].
  destruct (IsEqualGUID riid IID_IWICBitmapFrameDecode) eqn:E2;
    [apply IsEqualGUID_true in E2; left; cbn; auto|].
  destruct (IsEqualGUID riid IID_IWICBitmapSource) eqn:E3;
    [apply IsEqualGUID_true in E3; left; cbn; auto|].
  apply IsEqualGUID_false in E1, E2, E3.
  right. cbn. auto 7.
Qed.

(** The same description for the placeholder frame, over two identifiers. *)
Lemma DummyFrame_QueryInterface_cases
    (this : DummyFrame) (riid : GUID) (old : option interface_pointer) :
  ((riid = IID_IUnknown \/ riid = IID_IWICBitmapFrameDecode) /\
   hr (dummy_query this riid (Some old)) = S_OK)
  \/
  (riid <> IID_IUnknown /\ riid <> IID_IWICBitmapFrameDecode /\
   hr (dummy_query this riid (Some old)) = E_NOINTERFACE /\
   ppvObject_out (dummy_query this riid (Some old)) = Some None).
Proof.
  unfold DummyFrame_QueryInterface.
  destruct (IsEqualGUID riid IID_IUnknown) eqn:E1;
    [apply IsEqualGUID_true in E1; left; cbn; auto|].
  destruct (IsEqualGUID riid IID_IWICBitmapFrameDecode) eqn:E2;
    [apply IsEqualGUID_true in E2; left; cbn; auto|].
  apply IsEqualGUID_false in E1, E2.
  right. cbn. auto.
Qed.

(** C10. The identifiers being distinct, the placeholder frame answers
    [S_OK] exactly for [IID_IUnknown] and [IID_IWICBitmapFrameDecode];
    whatever it accepts the decoded frame accepts too; and it rejects
    [IID_IWICBitmapSource], which the decoded frame accepts. *)
Theorem DummyFrame_QueryInterface_strictly_smaller
    (dummy : DummyFrame) (frame : DecodeFrame)
    (old : option interface_pointer) :
  IID_IWICBitmapSource <> IID_IUnknown ->
  IID_IWICBitmapSource <> IID_IWICBitmapFrameDecode ->
  (forall riid,
     hr (dummy_query dummy riid (Some old)) = S_OK
     <-> riid = IID_IUnknown \/ riid = IID_IWICBitmapFrameDecode) /\
  (forall riid,
     hr (dummy_query dummy riid (Some old)) = S_OK ->
     hr (real_query frame riid (Some old)) = S_OK) /\
  hr (dummy_query dummy IID_IWICBitmapSource (Some old)) = E_NOINTERFACE /\
  ppvObject_out (dummy_query dummy IID_IWICBitmapSource (Some old))
    = Some None /\
  hr (real_query frame IID_IWICBitmapSource (Some old)) = S_OK.
Proof.
  intros Hne1 Hne2.
  assert (Hdummy : forall riid,
    hr (dummy_query dummy riid (Some old)) = S_OK
    <-> riid = IID_IUnknown \/ riid = IID_IWICBitmapFrameDecode).
  { intros riid.
    destruct (DummyFrame_QueryInterface_cases dummy riid old)
      as [(Hin & Hok)|(Hn1 & Hn2 & Hno & _)].
    - split; auto.
    - rewrite Hno. split; [discriminate|]. intros [E|E]; contradiction. }
  split; [exact Hdummy|]. split; [|split; [|split]].
  - intros riid Hok. apply Hdummy in Hok.
    apply DecodeFrame_QueryInterface_accepts. tauto.
  - destruct (DummyFrame_QueryInterface_cases dummy IID_IWICBitmapSource old)
      as [([E|E] & _)|(_ & _ & Hno & _)]; [congruence|congruence|exact Hno].
  - destruct (DummyFrame_QueryInterface_cases dummy IID_IWICBitmapSource old)
      as [([E|E] & _)|(_ & _ & _ & Hnull)]; [congruence|congruence|exact Hnull].
  - apply DecodeFrame_QueryInterface_accepts. auto.
Qed.

End QueryInterfaceProperties.

Lemma DummyFrame_QueryInterface_strictly_smaller_sdk :
  (forall riid,
     hr (DummyFrame_QueryInterface sdk_IID_IUnknown
           sdk_IID_IWICBitmapFrameDecode unit (fun u => u) tt riid
           (Some None)) = S_OK
     <-> riid = sdk_IID_IUnknown \/ riid = sdk_IID_IWICBitmapFrameDecode) /\
  (forall riid,
     hr (DummyFrame_QueryInterface sdk_IID_IUnknown
           sdk_IID_IWICBitmapFrameDecode unit (fun u => u) tt riid
           (Some None)) = S_OK ->
     hr (DecodeFrame_QueryInterface sdk_IID_IUnknown
           sdk_IID_IWICBitmapFrameDecode sdk_IID_IWICBitmapSource
           (fun f => f) frame_4x2 riid (Some None)) = S_OK) /\
  hr (DummyFrame_QueryInterface sdk_IID_IUnknown
        sdk_IID_IWICBitmapFrameDecode unit (fun u => u) tt
        sdk_IID_IWICBitmapSource (Some None)) = E_NOINTERFACE /\
  ppvObject_out (DummyFrame_QueryInterface sdk_IID_IUnknown
        sdk_IID_IWICBitmapFrameDecode unit (fun u => u) tt
        sdk_IID_IWICBitmapSource (Some None)) = Some None /\
  hr (DecodeFrame_QueryInterface sdk_IID_IUnknown
        sdk_IID_IWICBitmapFrameDecode sdk_IID_IWICBitmapSource
        (fun f => f) frame_4x2 sdk_IID_IWICBitmapSource (Some None)) = S_OK.
Proof.
  apply (DummyFrame_QueryInterface_strictly_smaller
           sdk_IID_IUnknown sdk_IID_IWICBitmapFrameDecode
           sdk_IID_IWICBitmapSource (fun f => f) unit (fun u => u)
           tt frame_4x2 None); discriminate.
Defined.

(* ================================================================== *)
(** * Further properties of the frame operations *)
(* ================================================================== *)

(** ** The checks of [CopyPixels] *)

Lemma rect_negative_false (rect : WICRect) :
  rect_negative rect = false
  <-> 0 <= X rect /\ 0 <= Y rect /\ 0 <= Width rect /\ 0 <= Height rect.
Proof.
  unfold rect_negative.
  destruct (Z.ltb_spec (Width rect) 0); destruct (Z.ltb_spec (Height rect) 0);
    destruct (Z.ltb_spec (X rect) 0); destruct (Z.ltb_spec (Y rect) 0);
    cbn; split; intros; try discriminate; try lia; reflexivity.
Qed.

Lemma rect_outside_exact (img : RGBImage) (rect : WICRect) :
  0 <= X rect -> 0 <= Y rect -> 0 <= Width rect -> 0 <= Height rect ->
  X rect + Width rect <= INT_MAX -> Y rect + Height rect <= INT_MAX ->
  (rect_outside img rect = false
   <-> X rect + Width rect <= width img /\ Y rect + Height rect <= height img).
Proof.
  intros HX HY HW HH Hxs Hys. unfold rect_outside, int_add.
  rewrite !wrap_int_small by (unfold INT_MAX in *; lia).
  rewrite !Z.gtb_ltb.
  destruct (Z.ltb_spec (width img) (X rect + Width rect));
    destruct (Z.ltb_spec (height img) (Y rect + Height rect));
    cbn; split; intros; try discriminate; try lia; reflexivity.
Qed.

(** A valid, non-empty request goes through every check and the row loop. *)
Lemma CopyPixels_runs_row_loop
    (this : DecodeFrame) (src : buffer) (prc : option WICRect) (rect : WICRect)
    (cbStride cbBufferSize : Z) (dst : buffer) :
  decoded_image (image_ this) src ->
  rect = effective_rect (image_ this) prc ->
  0 <= X rect -> 0 <= Y rect -> 0 < Width rect -> 0 < Height rect ->
  X rect + Width rect <= width (image_ this) ->
  Y rect + Height rect <= height (image_ this) ->
  0 <= cbBufferSize ->
  Width rect <= cbStride / 4 ->
  Height rect <= cbBufferSize / cbStride ->
  cbBufferSize <= size dst ->
  exists dst',
    CopyPixels this prc cbStride cbBufferSize (Some dst)
      = Ret (S_OK, Some dst') /\
    size dst' = size dst /\
    (forall r j, 0 <= r < Height rect -> 0 <= j < Width rect * 4 ->
       byte_at dst' (r * cbStride + j)
       = byte_at src ((Y rect + r) * stride (image_ this) + X rect * 4 + j)) /\
    (forall off,
       (forall r, 0 <= r < Height rect -> ~ in_dest_row rect cbStride r off) ->
       byte_at dst' off = byte_at dst off).
Proof.
  intros Himage Hrect HX HY HW HH Hright Hbottom Hc Hpitch Hrows Hdst.
  assert (Hstride4 : 4 <= cbStride).
  { pose proof (Z.mul_div_le cbStride 4 ltac:(lia)). lia. }
  assert (Hpitch' : Width rect * 4 <= cbStride).
  { pose proof (Z.mul_div_le cbStride 4 ltac:(lia)). lia. }
  assert (Hcap : Height rect * cbStride <= size dst).
  { pose proof (Z.mul_div_le cbBufferSize cbStride ltac:(lia)). nia. }
  pose proof Himage as (Hrgb & Hw & Hh & Hstr & Hsize & Hint).
  destruct (spec_copy_rows_effect (image_ this) src rect cbStride
              Himage HX HY HW HH Hright Hbottom Hpitch'
              (Z.to_nat (Height rect)) 0 dst)
    as (dst' & Hrun & Hsz & Hfill & Hrest); [lia|lia|exact Hcap|].
  exists dst'. split; [|split; [exact Hsz|split]].
  - unfold CopyPixels. rewrite <- Hrect.
    assert (Hneg : rect_negative rect = false)
      by (apply rect_negative_false; lia).
    assert (Hout : rect_outside (image_ this) rect = false)
      by (apply rect_outside_exact; unfold INT_MAX in *; nia).
    rewrite Hneg, Hout.
    rewrite !udiv_nonzero by (unfold kBytesPerPixel; lia).
    cbn [bind]. unfold kBytesPerPixel at 1.
    rewrite !to_UINT_small by (unfold is_UINT, UINT_MAX, INT_MAX in *; nia).
    destruct (Z.ltb_spec (cbStride / 4) (Width rect)); [lia|].
    destruct (Z.ltb_spec (cbBufferSize / cbStride) (Height rect)); [lia|].
    destruct (Z.eqb_spec (Width rect) 0); [lia|].
    destruct (Z.eqb_spec (Height rect) 0); [lia|].
    cbn [orb].
    pose proof (copy_rows_refines (image_ this) src rect cbStride
                  Himage HX HY HW HH Hright Hbottom
                  (Z.to_nat (Height rect)) 0 dst ltac:(lia) ltac:(lia)) as Href.
    rewrite Z.add_0_r, Z.mul_0_l in Href.
    rewrite Href, Hrun. reflexivity.
  - intros r j Hr Hj. apply Hfill; lia.
  - intros off Hoff. apply Hrest. intros r Hr. apply Hoff. lia.
Qed.

Lemma CopyPixels_rejects_outside_sample :
  CopyPixels frame_10x10
    (Some {| X := 0; Y := 9; Width := 10; Height := 2 |}) 40 400
    (Some (blank 400)) = Ret (E_INVALIDARG, Some (blank 400)).
Proof.
  apply (CopyPixels_rejects_outside frame_10x10
           (Some {| X := 0; Y := 9; Width := 10; Height := 2 |})
           {| X := 0; Y := 9; Width := 10; Height := 2 |} 40 400 (blank 400)).
  - reflexivity.
  - vm_compute; congruence.
  - vm_compute; congruence.
  - vm_compute; congruence.
  - vm_compute; congruence.
  - vm_compute; congruence.
  - vm_compute; congruence.
  - right. reflexivity.
Defined.

(** X2. A region inside the image whose width exceeds [cbStride / 4] is
    answered [E_INVALIDARG] with the destination untouched.  This includes
    [cbStride = 0] with a non-empty width: the stride check fires before
    the division by [cbStride] is reached. *)
Theorem CopyPixels_stride_too_small
    (this : DecodeFrame) (prc : option WICRect) (rect : WICRect)
    (cbStride cbBufferSize : Z) (dst : buffer) :
  rect = effective_rect (image_ this) prc ->
  0 <= X rect -> 0 <= Y rect -> 0 <= Width rect -> 0 <= Height rect ->
  X rect + Width rect <= width (image_ this) ->
  Y rect + Height rect <= height (image_ this) ->
  width (image_ this) <= INT_MAX -> height (image_ this) <= INT_MAX ->
  cbStride / 4 < Width rect ->
  CopyPixels this prc cbStride cbBufferSize (Some dst)
    = Ret (E_INVALIDARG, Some dst).
Proof.
  intros Hrect HX HY HW HH Hright Hbottom Hwi Hhi Hsmall.
  unfold CopyPixels. rewrite <- Hrect.
  assert (Hneg : rect_negative rect = false)
    by (apply rect_negative_false; lia).
  assert (Hout : rect_outside (image_ this) rect = false)
    by (apply rect_outside_exact; lia).
  rewrite Hneg, Hout.
  rewrite udiv_nonzero by (unfold kBytesPerPixel; lia).
  cbn [bind]. unfold kBytesPerPixel.
  rewrite to_UINT_small by (unfold is_UINT, UINT_MAX, INT_MAX in *; lia).
  destruct (Z.ltb_spec (cbStride / 4) (Width rect)); [reflexivity|lia].
Qed.

(** The 1 x 1 image with a destination stride of 3. *)
Lemma CopyPixels_stride_too_small_sample :
  CopyPixels frame_1x1 None 3 4 (Some (blank 4))
    = Ret (E_INVALIDARG, Some (blank 4)).
Proof.
  apply (CopyPixels_stride_too_small frame_1x1 None
           {| X := 0; Y := 0; Width := 1; Height := 1 |} 3 4 (blank 4)).
  - reflexivity.
  - vm_compute; congruence.
  - vm_compute; congruence.
  - vm_compute; congruence.
  - vm_compute; congruence.
  - vm_compute; congruence.
  - vm_compute; congruence.
  - vm_compute; congruence.
  - vm_compute; congruence.
  - reflexivity.
Defined.

(** X3. A region inside the image that fits the stride but has more rows
    than [cbBufferSize / cbStride] is answered
    [WINCODEC_ERR_INSUFFICIENTBUFFER] with the destination untouched. *)
Theorem CopyPixels_buffer_too_small
    (this : DecodeFrame) (prc : option WICRect) (rect : WICRect)
    (cbStride cbBufferSize : Z) (dst : buffer) :
  rect = effective_rect (image_ this) prc ->
  0 <= X rect -> 0 <= Y rect -> 0 <= Width rect -> 0 <= Height rect ->
  X rect + Width rect <= width (image_ this) ->
  Y rect + Height rect <= height (image_ this) ->
  width (image_ this) <= INT_MAX -> height (image_ this) <= INT_MAX ->
  cbStride <> 0 ->
  Width rect <= cbStride / 4 ->
  cbBufferSize / cbStride < Height rect ->
  CopyPixels this prc cbStride cbBufferSize (Some dst)
    = Ret (WINCODEC_ERR_INSUFFICIENTBUFFER, Some dst).
Proof.
  intros Hrect HX HY HW HH Hright Hbottom Hwi Hhi Hs Hpitch Hsmall.
  unfold CopyPixels. rewrite <- Hrect.
  assert (Hneg : rect_negative rect = false)
    by (apply rect_negative_false; lia).
  assert (Hout : rect_outside (image_ this) rect = false)
    by (apply rect_outside_exact; lia).
  rewrite Hneg, Hout.
  rewrite !udiv_nonzero by (unfold kBytesPerPixel; lia).
  cbn [bind]. unfold kBytesPerPixel.
  rewrite !to_UINT_small by (unfold is_UINT, UINT_MAX, INT_MAX in *; lia).
  destruct (Z.ltb_spec (cbStride / 4) (Width rect)); [lia|].
  destruct (Z.ltb_spec (cbBufferSize / cbStride) (Height rect));
    [reflexivity|lia].
Qed.

Lemma CopyPixels_buffer_too_small_sample :
  CopyPixels frame_4x2 None 16 31 (Some (blank 31))
    = Ret (WINCODEC_ERR_INSUFFICIENTBUFFER, Some (blank 31)).
Proof.
  apply (CopyPixels_buffer_too_small frame_4x2 None
           {| X := 0; Y := 0; Width := 4; Height := 2 |} 16 31 (blank 31)).
  - reflexivity.
  - vm_compute; congruence.
  - vm_compute; congruence.
  - vm_compute; congruence.
  - vm_compute; congruence.
  - vm_compute; congruence.
  - vm_compute; congruence.
  - vm_compute; congruence.
  - vm_compute; congruence.
  - discriminate.
  - vm_compute; congruence.
  - reflexivity.
Defined.

(** ** [CopyPixels] never leaves its buffers *)

(** X4. On a decoded image, with a non-zero stride, a destination of at
    least [cbBufferSize] bytes and a rectangle whose sums fit in [int],
    [CopyPixels] always returns a code (it does not fault), the destination
    keeps its size, and the code is [S_OK] exactly when the rectangle is
    non-negative, inside the image, and fits the stride and the capacity. *)
Theorem CopyPixels_returns_code
    (this : DecodeFrame) (src : buffer) (prc : option WICRect) (rect : WICRect)
    (cbStride cbBufferSize : Z) (dst : buffer) :
  decoded_image (image_ this) src ->
  rect = effective_rect (image_ this) prc ->
  X rect + Width rect <= INT_MAX -> Y rect + Height rect <= INT_MAX ->
  cbStride <> 0 -> 0 <= cbBufferSize -> cbBufferSize <= size dst ->
  exists code out,
    CopyPixels this prc cbStride cbBufferSize (Some dst)
      = Ret (code, Some out) /\
    size out = size dst /\
    (code = S_OK
     <-> 0 <= X rect /\ 0 <= Y rect /\ 0 <= Width rect /\ 0 <= Height rect /\
         X rect + Width rect <= width (image_ this) /\
         Y rect + Height rect <= height (image_ this) /\
         Width rect <= cbStride / 4 /\
         Height rect <= cbBufferSize / cbStride).
Proof.
  intros Himage Hrect Hxs Hys Hs Hc Hdst.
  destruct (rect_negative rect) eqn:Hneg.
  { exists E_INVALIDARG, dst. unfold CopyPixels. rewrite <- Hrect, Hneg.
    split; [reflexivity|]. split; [reflexivity|].
    split; [discriminate|]. intros Hvalid.
    assert (rect_negative rect = false) by (apply rect_negative_false; lia).
    congruence. }
  pose proof (proj1 (rect_negative_false rect) Hneg) as (HX & HY & HW & HH).
  pose proof (rect_outside_exact (image_ this) rect HX HY HW HH Hxs Hys)
    as Hoexact.
  destruct (rect_outside (image_ this) rect) eqn:Hout.
  { exists E_INVALIDARG, dst. unfold CopyPixels. rewrite <- Hrect, Hneg, Hout.
    split; [reflexivity|]. split; [reflexivity|].
    split; [discriminate|]. intros Hvalid.
    assert (true = false) by (apply Hoexact; lia). discriminate. }
  pose proof (proj1 Hoexact eq_refl) as (Hright & Hbottom).
  destruct (Z_lt_dec (cbStride / 4) (Width rect)) as [Hnarrow|Hpitch].
  { exists E_INVALIDARG, dst. split; [|split; [reflexivity|]].
    - unfold CopyPixels. rewrite <- Hrect, Hneg, Hout.
      rewrite udiv_nonzero by (unfold kBytesPerPixel; lia).
      cbn [bind]. unfold kBytesPerPixel.
      rewrite to_UINT_small by (unfold is_UINT, UINT_MAX, INT_MAX in *; lia).
      destruct (Z.ltb_spec (cbStride / 4) (Width rect)); [reflexivity|lia].
    - split; [discriminate|]. intros Hvalid. lia. }
  destruct (Z_lt_dec (cbBufferSize / cbStride) (Height rect)) as [Hshort|Hrows].
  { exists WINCODEC_ERR_INSUFFICIENTBUFFER, dst. split; [|split; [reflexivity|]].
    - unfold CopyPixels. rewrite <- Hrect, Hneg, Hout.
      rewrite !udiv_nonzero by (unfold kBytesPerPixel; lia).
      cbn [bind]. unfold kBytesPerPixel.
      rewrite !to_UINT_small by (unfold is_UINT, UINT_MAX, INT_MAX in *; lia).
      destruct (Z.ltb_spec (cbStride / 4) (Width rect)); [lia|].
      destruct (Z.ltb_spec (cbBufferSize / cbStride) (Height rect));
        [reflexivity|lia].
    - split; [discriminate|]. intros Hvalid. lia. }
  destruct (Z.eq_dec (Width rect) 0) as [HW0|HW0];
    [|destruct (Z.eq_dec (Height rect) 0) as [HH0|HH0]].
  1,2: exists S_OK, dst; split; [|split; [reflexivity|split; [lia|reflexivity]]];
    unfold CopyPixels; rewrite <- Hrect, Hneg, Hout;
    rewrite !udiv_nonzero by (unfold kBytesPerPixel; lia);
    cbn [bind]; unfold kBytesPerPixel;
    rewrite !to_UINT_small by (unfold is_UINT, UINT_MAX, INT_MAX in *; lia);
    (destruct (Z.ltb_spec (cbStride / 4) (Width rect)); [lia|]);
    (destruct (Z.ltb_spec (cbBufferSize / cbStride) (Height rect)); [lia|]);
    (destruct (Z.eqb_spec (Width rect) 0); [reflexivity|]);
    (destruct (Z.eqb_spec (Height rect) 0); [reflexivity|lia]).
  destruct (CopyPixels_runs_row_loop this src prc rect cbStride cbBufferSize
              dst Himage Hrect) as (dst' & Hrun & Hsz & _); try lia.
  exists S_OK, dst'. split; [exact Hrun|]. split; [exact Hsz|].
  split; [lia|reflexivity].
Qed.

Lemma CopyPixels_returns_code_sample :
  exists code out,
    CopyPixels frame_4x2
      (Some {| X := 3; Y := 1; Width := 1; Height := 1 |}) 5 7
      (Some (blank 9)) = Ret (code, Some out) /\
    size out = size (blank 9) /\
    (code = S_OK
     <-> 0 <= 3 /\ 0 <= 1 /\ 0 <= 1 /\ 0 <= 1 /\
         3 + 1 <= 4 /\ 1 + 1 <= 2 /\ 1 <= 5 / 4 /\ 1 <= 7 / 5).
Proof.
  apply (CopyPixels_returns_code frame_4x2 pixels_4x2
           (Some {| X := 3; Y := 1; Width := 1; Height := 1 |})
           {| X := 3; Y := 1; Width := 1; Height := 1 |} 5 7 (blank 9)).
  - repeat split; vm_compute; congruence.
  - reflexivity.
  - vm_compute; congruence.
  - vm_compute; congruence.
  - discriminate.
  - vm_compute; congruence.
  - vm_compute; congruence.
Defined.

(** ** Copying the whole image *)

Lemma buffer_ext (a b : buffer) :
  size a = size b ->
  (forall off, 0 <= off < size a -> byte_at a off = byte_at b off) ->
  a = b.
Proof.
  unfold size, byte_at. intros Hsz Hbytes. apply nth_error_ext. intros n.
  destruct (Nat.lt_ge_cases n (length a)) as [Hin|Hout].
  - specialize (Hbytes (Z.of_nat n) ltac:(lia)).
    destruct (Z.ltb_spec (Z.of_nat n) 0); [lia|].
    rewrite Nat2Z.id in Hbytes. exact Hbytes.
  - rewrite (proj2 (nth_error_None a n)) by lia.
    rewrite (proj2 (nth_error_None b n)) by lia. reflexivity.
Qed.

Lemma byte_at_prefix_suffix (src dst : buffer) (n off : Z) :
  0 <= n -> n <= size src -> n <= size dst -> 0 <= off ->
  byte_at (firstn (Z.to_nat n) src ++ skipn (Z.to_nat n) dst) off
  = if off <? n then byte_at src off else byte_at dst off.
Proof.
  unfold size, byte_at. intros Hn Hsrc Hdst Hoff.
  destruct (Z.ltb_spec off 0); [lia|].
  assert (Hlen : length (firstn (Z.to_nat n) src) = Z.to_nat n)
    by (rewrite length_firstn; lia).
  destruct (Z.ltb_spec off n).
  - rewrite nth_error_app1 by lia. rewrite nth_error_firstn.
    destruct (Nat.ltb_spec (Z.to_nat off) (Z.to_nat n)); [reflexivity|lia].
  - rewrite nth_error_app2 by lia. rewrite nth_error_skipn. f_equal. lia.
Qed.

(** X5. On an image whose byte size [stride * height] fits in [int], a
    request for the whole image ([prc] null) with the image's own stride
    and a capacity of [stride * height] bytes returns [S_OK]; the
    destination then starts with the [stride * height] bytes of the pixel
    buffer, in order, and whatever followed them is unchanged. *)
Theorem CopyPixels_whole_image
    (this : DecodeFrame) (src dst : buffer) :
  spec_decoded_image (image_ this) src ->
  stride (image_ this) * height (image_ this) <= INT_MAX ->
  stride (image_ this) * height (image_ this) <= size dst ->
  CopyPixels this None (stride (image_ this))
    (stride (image_ this) * height (image_ this)) (Some dst)
  = Ret (S_OK,
         Some (firstn (Z.to_nat (stride (image_ this) * height (image_ this)))
                      src
               ++ skipn (Z.to_nat (stride (image_ this) * height (image_ this)))
                        dst)).
Proof.
  intros Hspec Hfit Hdst.
  pose proof (decoded_image_intro _ _ Hspec Hfit) as Himage.
  pose proof Himage as (Hrgb & Hw & Hh & Hstr & Hsize & Hint).
  set (st := stride (image_ this)) in *.
  set (n := st * height (image_ this)) in *.
  assert (Hst : 0 < st) by lia.
  destruct (CopyPixels_runs_row_loop this src None
              (effective_rect (image_ this) None) st n dst Himage eq_refl)
    as (dst' & Hrun & Hsz & Hfill & Hrest); cbn [effective_rect X Y Width Height];
    try lia.
  { subst st. rewrite Hstr, Z.div_mul by lia. lia. }
  { subst n. rewrite Z.mul_comm, Z.div_mul by lia. lia. }
  rewrite Hrun. do 3 f_equal.
  cbn [effective_rect X Y Width Height] in Hfill, Hrest.
  apply buffer_ext.
  - rewrite Hsz. unfold size in *.
    rewrite length_app, length_firstn, length_skipn. lia.
  - intros off Hoff. rewrite byte_at_prefix_suffix by nia.
    destruct (Z.ltb_spec off n) as [Hin|Hpast].
    + pose proof (Z.div_mod off st ltac:(lia)) as Hdm.
      pose proof (Z.mod_pos_bound off st Hst) as Hmod.
      assert (Hr : 0 <= off / st < height (image_ this)).
      { split; [apply Z.div_pos; lia|].
        apply Z.div_lt_upper_bound; [lia|]. subst n. lia. }
      specialize (Hfill (off / st) (off mod st) Hr ltac:(lia)).
      replace (off / st * st + off mod st) with off in Hfill by lia.
      rewrite Hfill. f_equal. lia.
    + apply Hrest. intros r Hr. unfold in_dest_row.
      cbn [Width]. subst n. nia.
Qed.

Lemma CopyPixels_whole_image_sample :
  CopyPixels frame_4x2 None 16 32 (Some (blank 35))
  = Ret (S_OK, Some (pixels_4x2 ++ blank 3)).
Proof.
  apply (CopyPixels_whole_image frame_4x2 pixels_4x2 (blank 35)).
  - repeat split; vm_compute; congruence.
  - vm_compute; congruence.
  - vm_compute; congruence.
Defined.

(** ** The row bound of [CopyPixels] beyond [INT_MAX] *)

(** X6. When [rect.Y + rect.Height] exceeds [INT_MAX] (both being
    non-negative [int] values), the wrapped sum is negative: the bounds
    check lets the rectangle through and the row loop does not run.  If the
    rectangle's columns are inside the image and the stride and capacity
    checks pass, the call returns [S_OK] and writes nothing. *)
Theorem CopyPixels_row_bound_wraps
    (this : DecodeFrame) (rect : WICRect)
    (cbStride cbBufferSize : Z) (dst : buffer) :
  0 <= X rect -> 0 <= Width rect ->
  0 <= Y rect <= INT_MAX -> 0 <= Height rect <= INT_MAX ->
  INT_MAX < Y rect + Height rect ->
  X rect + Width rect <= width (image_ this) ->
  width (image_ this) <= INT_MAX -> 0 <= height (image_ this) ->
  Width rect <= cbStride / 4 ->
  Height rect <= cbBufferSize / cbStride ->
  CopyPixels this (Some rect) cbStride cbBufferSize (Some dst)
    = Ret (S_OK, Some dst).
Proof.
  intros HX HW HY HH Hwrap Hright Hwi Hhi Hpitch Hrows.
  assert (Hs : cbStride <> 0).
  { intros ->. rewrite Z.div_0_r in Hrows. unfold INT_MAX in *. lia. }
  assert (Hend : int_add (Y rect) (Height rect) < 0).
  { unfold int_add, wrap_int, INT_MAX in *.
    replace (Y rect + Height rect + 2 ^ 31)
      with (Y rect + Height rect - 2 ^ 31 + 1 * 2 ^ 32) by lia.
    rewrite Z.mod_add by lia. rewrite Z.mod_small by lia. lia. }
  unfold CopyPixels. cbn [effective_rect].
  assert (Hneg : rect_negative rect = false)
    by (apply rect_negative_false; lia).
  assert (Hout : rect_outside (image_ this) rect = false).
  { unfold rect_outside. rewrite !Z.gtb_ltb.
    unfold int_add at 1. rewrite wrap_int_small by (unfold INT_MAX in *; lia).
    destruct (Z.ltb_spec (width (image_ this)) (X rect + Width rect)); [lia|].
    destruct (Z.ltb_spec (height (image_ this))
                (int_add (Y rect) (Height rect))); [lia|reflexivity]. }
  rewrite Hneg, Hout.
  rewrite !udiv_nonzero by (unfold kBytesPerPixel; lia).
  cbn [bind]. unfold kBytesPerPixel at 1.
  rewrite !to_UINT_small by (unfold is_UINT, UINT_MAX, INT_MAX in *; lia).
  destruct (Z.ltb_spec (cbStride / 4) (Width rect)); [lia|].
  destruct (Z.ltb_spec (cbBufferSize / cbStride) (Height rect)); [lia|].
  destruct ((Width rect =? 0) || (Height rect =? 0)); [reflexivity|].
  destruct (Z.to_nat (Height rect)); cbn [copy_rows];
    (destruct (Z.ltb_spec (Y rect) (int_add (Y rect) (Height rect))); [lia|]);
    reflexivity.
Qed.

Lemma CopyPixels_row_bound_wraps_sample :
  CopyPixels frame_10x10
    (Some {| X := 2; Y := 2147483640; Width := 8; Height := 8 |}) 32 256
    (Some (blank 256)) = Ret (S_OK, Some (blank 256)).
Proof.
  apply (CopyPixels_row_bound_wraps frame_10x10
           {| X := 2; Y := 2147483640; Width := 8; Height := 8 |} 32 256
           (blank 256)).
  - vm_compute; congruence.
  - vm_compute; congruence.
  - split; vm_compute; congruence.
  - split; vm_compute; congruence.
  - reflexivity.
  - vm_compute; congruence.
  - vm_compute; congruence.
  - vm_compute; congruence.
  - vm_compute; congruence.
  - vm_compute; congruence.
Defined.

(** ** The outcomes of [CreateFromVP8Stream] *)

(** X7. [CreateFromVP8Stream] returns [S_OK] exactly when both allocations
    succeed and the decoder yields a buffer with positive width and
    height. *)
Theorem CreateFromVP8Stream_succeeds_iff
    (env : Environment) (vp8_bitstream : buffer) (stream_size : Z)
    (prior : option held_frame) (h : heap) :
  create_hr (CreateFromVP8Stream env vp8_bitstream stream_size prior h) = S_OK
  <-> new_RGBImage_succeeds env = true /\
      new_DecodeFrame_succeeds env = true /\
      decoded_rgb (WebPDecodeBGRA env vp8_bitstream stream_size) <> None /\
      0 < decoded_width (WebPDecodeBGRA env vp8_bitstream stream_size) /\
      0 < decoded_height (WebPDecodeBGRA env vp8_bitstream stream_size).
Proof.
  unfold CreateFromVP8Stream.
  destruct (new_RGBImage_succeeds env); cbn [negb].
  2:{ cbn. split; [discriminate|]. intros (F & _). discriminate. }
  set (out0 := WebPDecodeBGRA env vp8_bitstream stream_size).
  cbn [rgb width height].
  destruct (decoded_rgb out0) as [data0|]; cbn [negb].
  2:{ cbn. split; [discriminate|]. intros (_ & _ & F & _). congruence. }
  destruct (Z.leb_spec (decoded_width out0) 0); cbn [orb].
  { cbn. split; [discriminate|]. intros (_ & _ & _ & F & _). lia. }
  destruct (Z.leb_spec (decoded_height out0) 0).
  { cbn. split; [discriminate|]. intros (_ & _ & _ & _ & F). lia. }
  destruct (new_DecodeFrame_succeeds env); cbn.
  - split; [|reflexivity]. intros _. repeat split; auto; discriminate.
  - split; [discriminate|]. intros (_ & F & _). discriminate.
Qed.

(** X8. [E_OUTOFMEMORY] is returned exactly when the image object cannot
    be allocated, in which case the decoder is not run at all, or when the
    decoder has yielded a buffer with positive dimensions and the frame
    object cannot be allocated.  The decoder is never run twice. *)
Theorem CreateFromVP8Stream_out_of_memory
    (env : Environment) (vp8_bitstream : buffer) (stream_size : Z)
    (prior : option held_frame) (h : heap) :
  (create_hr (CreateFromVP8Stream env vp8_bitstream stream_size prior h)
     = E_OUTOFMEMORY
   <-> new_RGBImage_succeeds env = false
       \/ (new_DecodeFrame_succeeds env = false /\
           decoded_rgb (WebPDecodeBGRA env vp8_bitstream stream_size)
             <> None /\
           0 < decoded_width (WebPDecodeBGRA env vp8_bitstream stream_size) /\
           0 < decoded_height
                 (WebPDecodeBGRA env vp8_bitstream stream_size))) /\
  decoder_calls (CreateFromVP8Stream env vp8_bitstream stream_size prior h)
  = (if new_RGBImage_succeeds env
     then [WebPDecodeBGRA env vp8_bitstream stream_size]
     else []).
Proof.
  unfold CreateFromVP8Stream.
  destruct (new_RGBImage_succeeds env); cbn [negb].
  2:{ cbn. split; [|reflexivity]. split; auto. }
  set (out0 := WebPDecodeBGRA env vp8_bitstream stream_size).
  cbn [rgb width height].
  destruct (decoded_rgb out0) as [data0|]; cbn [negb].
  2:{ cbn. split; [|reflexivity]. split; [discriminate|].
      intros [F|(_ & F & _)]; congruence. }
  destruct (Z.leb_spec (decoded_width out0) 0); cbn [orb].
  { cbn. split; [|reflexivity]. split; [discriminate|].
    intros [F|(_ & _ & F & _)]; [discriminate|lia]. }
  destruct (Z.leb_spec (decoded_height out0) 0).
  { cbn. split; [|reflexivity]. split; [discriminate|].
    intros [F|(_ & _ & _ & F)]; [discriminate|lia]. }
  destruct (new_DecodeFrame_succeeds env); cbn.
  - split; [|reflexivity]. split; [discriminate|].
    intros [F|(F & _)]; discriminate.
  - split; [|reflexivity]. split; [|reflexivity].
    intros _. right. repeat split; auto; discriminate.
Qed.

(** X9. After a successful decode the frame carries the decoder's buffer
    and dimensions, and its stride equals [width * 4] exactly when
    [width <= 536870911]; for a wider image the product has wrapped. *)
Theorem CreateFromVP8Stream_stride
    (env : Environment) (vp8_bitstream : buffer) (stream_size : Z)
    (prior : option held_frame) (h : heap) :
  create_hr (CreateFromVP8Stream env vp8_bitstream stream_size prior h) = S_OK ->
  exists frame,
    ppOutput (CreateFromVP8Stream env vp8_bitstream stream_size prior h)
      = Some frame /\
    rgb (image_ frame)
      = decoded_rgb (WebPDecodeBGRA env vp8_bitstream stream_size) /\
    width (image_ frame)
      = decoded_width (WebPDecodeBGRA env vp8_bitstream stream_size) /\
    height (image_ frame)
      = decoded_height (WebPDecodeBGRA env vp8_bitstream stream_size) /\
    (stride (image_ frame) = width (image_ frame) * 4
     <-> width (image_ frame) <= 536870911).
Proof.
  unfold CreateFromVP8Stream.
  destruct (new_RGBImage_succeeds env); cbn [negb]; [|discriminate].
  set (out0 := WebPDecodeBGRA env vp8_bitstream stream_size).
  cbn [rgb width height].
  destruct (decoded_rgb out0) as [data0|] eqn:Hrgb; cbn [negb];
    [|discriminate].
  destruct (Z.leb_spec (decoded_width out0) 0); cbn [orb]; [discriminate|].
  destruct (Z.leb_spec (decoded_height out0) 0); [discriminate|].
  destruct (new_DecodeFrame_succeeds env); cbn [negb]; [|discriminate].
  intros _. eexists. cbn. split; [reflexivity|].
  repeat (split; [reflexivity|]).
  cbn [stride image_ width]. unfold int_mul, kBytesPerPixel. split.
  - intros Heq.
    pose proof (wrap_int_range (decoded_width out0 * 4)) as Hr.
    rewrite Heq in Hr. unfold INT_MAX in Hr. lia.
  - intros Hle. apply wrap_int_small. unfold INT_MAX. lia.
Qed.

Lemma CreateFromVP8Stream_stride_sample :
  exists frame,
    ppOutput (CreateFromVP8Stream (environment true sample_decoder true)
                [x00] 1 None []) = Some frame /\
    rgb (image_ frame) = Some pixels_4x2 /\
    width (image_ frame) = 4 /\
    height (image_ frame) = 2 /\
    (stride (image_ frame) = width (image_ frame) * 4
     <-> width (image_ frame) <= 536870911).
Proof.
  apply (CreateFromVP8Stream_stride (environment true sample_decoder true)
           [x00] 1 None []).
  reflexivity.
Defined.

(** ** Decoding, then reading the frame *)

Lemma CreateFromVP8Stream_frame
    (env : Environment) (vp8_bitstream : buffer) (stream_size : Z)
    (prior : option held_frame) (h : heap)
    (frame : DecodeFrame) :
  ppOutput (CreateFromVP8Stream env vp8_bitstream stream_size prior h)
    = Some frame ->
  let out := WebPDecodeBGRA env vp8_bitstream stream_size in
  image_ frame
  = {| rgb := decoded_rgb out; width := decoded_width out;
       height := decoded_height out;
       stride := int_mul (decoded_width out) kBytesPerPixel |} /\
  decoded_rgb out <> None /\
  0 < decoded_width out /\ 0 < decoded_height out.
Proof.
  unfold CreateFromVP8Stream.
  destruct (new_RGBImage_succeeds env); cbn [negb]; [|discriminate].
  set (out0 := WebPDecodeBGRA env vp8_bitstream stream_size).
  cbn [rgb width height].
  destruct (decoded_rgb out0) as [data0|] eqn:Hrgb; cbn [negb];
    [|discriminate].
  destruct (Z.leb_spec (decoded_width out0) 0); cbn [orb]; [discriminate|].
  destruct (Z.leb_spec (decoded_height out0) 0); [discriminate|].
  destruct (new_DecodeFrame_succeeds env); cbn [negb]; [|discriminate].
  cbn. intros Hf. injection Hf as <-. cbn.
  repeat split; auto. discriminate.
Qed.

(** X10. If the decoder's buffer [data] holds at least
    [width * 4 * height] bytes and that size fits in [int], the frame a
    successful decode hands out satisfies the decoded-image invariant over
    [data]. *)
Theorem CreateFromVP8Stream_establishes_invariant
    (env : Environment) (vp8_bitstream : buffer) (stream_size : Z)
    (prior : option held_frame) (h : heap)
    (frame : DecodeFrame) (data : buffer) :
  ppOutput (CreateFromVP8Stream env vp8_bitstream stream_size prior h)
    = Some frame ->
  decoded_rgb (WebPDecodeBGRA env vp8_bitstream stream_size) = Some data ->
  decoded_width (WebPDecodeBGRA env vp8_bitstream stream_size) * 4
  * decoded_height (WebPDecodeBGRA env vp8_bitstream stream_size)
    <= size data ->
  decoded_width (WebPDecodeBGRA env vp8_bitstream stream_size) * 4
  * decoded_height (WebPDecodeBGRA env vp8_bitstream stream_size)
    <= INT_MAX ->
  decoded_image (image_ frame) data.
Proof.
  intros Hframe Hdata Hsize Hint.
  destruct (CreateFromVP8Stream_frame env vp8_bitstream stream_size prior h frame
              Hframe) as (Himg & _ & Hw & Hh).
  rewrite Himg. unfold decoded_image. cbn [rgb width height stride].
  assert (Hstr :
    int_mul (decoded_width (WebPDecodeBGRA env vp8_bitstream stream_size))
            kBytesPerPixel
    = decoded_width (WebPDecodeBGRA env vp8_bitstream stream_size) * 4).
  { unfold int_mul, kBytesPerPixel. apply wrap_int_small.
    unfold INT_MAX in *. nia. }
  rewrite Hstr. repeat split; auto.
Qed.

Lemma CreateFromVP8Stream_establishes_invariant_sample :
  decoded_image (image_ frame_4x2) pixels_4x2.
Proof.
  apply (CreateFromVP8Stream_establishes_invariant
           (environment true sample_decoder true) [x00] 1 None []
           frame_4x2 pixels_4x2).
  - reflexivity.
  - reflexivity.
  - vm_compute; congruence.
  - vm_compute; congruence.
Defined.

(** X11. Decode, then copy everything: under the same two conditions on
    the decoder's buffer, a whole-image request on the decoded frame, with
    stride [width * 4] and a destination of exactly [width * 4 * height]
    bytes, returns [S_OK] and the destination becomes the first
    [width * 4 * height] bytes of the decoder's buffer, whatever it held
    before. *)
Theorem decode_then_copy_whole_image
    (env : Environment) (vp8_bitstream : buffer) (stream_size : Z)
    (prior : option held_frame) (h : heap)
    (frame : DecodeFrame) (data dst : buffer) :
  ppOutput (CreateFromVP8Stream env vp8_bitstream stream_size prior h)
    = Some frame ->
  decoded_rgb (WebPDecodeBGRA env vp8_bitstream stream_size) = Some data ->
  decoded_width (WebPDecodeBGRA env vp8_bitstream stream_size) * 4
  * decoded_height (WebPDecodeBGRA env vp8_bitstream stream_size)
    <= size data ->
  decoded_width (WebPDecodeBGRA env vp8_bitstream stream_size) * 4
  * decoded_height (WebPDecodeBGRA env vp8_bitstream stream_size)
    <= INT_MAX ->
  size dst
  = decoded_width (WebPDecodeBGRA env vp8_bitstream stream_size) * 4
    * decoded_height (WebPDecodeBGRA env vp8_bitstream stream_size) ->
  CopyPixels frame None
    (decoded_width (WebPDecodeBGRA env vp8_bitstream stream_size) * 4)
    (size dst) (Some dst)
  = Ret (S_OK, Some (firstn (length dst) data)).
Proof.
  intros Hframe Hdata Hsize Hint Hdst.
  destruct (CreateFromVP8Stream_frame env vp8_bitstream stream_size prior h frame
              Hframe) as (Himg & _ & Hw & Hh).
  set (out := WebPDecodeBGRA env vp8_bitstream stream_size) in *.
  assert (Hstr : int_mul (decoded_width out) kBytesPerPixel
                 = decoded_width out * 4).
  { unfold int_mul, kBytesPerPixel. apply wrap_int_small.
    unfold INT_MAX in *. nia. }
  assert (Himage : decoded_image (image_ frame) data).
  { rewrite Himg. unfold decoded_image. cbn [rgb width height stride].
    rewrite Hstr. repeat split; auto. }
  assert (Hst : 0 < decoded_width out * 4) by lia.
  destruct (CopyPixels_runs_row_loop frame data None
              (effective_rect (image_ frame) None)
              (decoded_width out * 4) (size dst) dst Himage eq_refl)
    as (dst' & Hrun & Hsz & Hfill & Hrest);
    rewrite ?Himg; cbn [effective_rect X Y Width Height width height];
    try lia.
  { rewrite Z.div_mul by lia. lia. }
  { rewrite Hdst, Z.mul_comm, Z.div_mul by lia. lia. }
  rewrite Hrun. do 3 f_equal.
  rewrite Himg in Hfill.
  cbn [effective_rect X Y Width Height width height stride] in Hfill.
  rewrite Hstr in Hfill.
  apply buffer_ext.
  - rewrite Hsz. unfold size in *. rewrite length_firstn. lia.
  - intros off Hoff. rewrite Hsz in Hoff.
    pose proof (Z.div_mod off (decoded_width out * 4) ltac:(lia)) as Hdm.
    pose proof (Z.mod_pos_bound off (decoded_width out * 4) Hst) as Hmod.
    assert (Hr : 0 <= off / (decoded_width out * 4) < decoded_height out).
    { split; [apply Z.div_pos; lia|].
      apply Z.div_lt_upper_bound; lia. }
    specialize (Hfill (off / (decoded_width out * 4))
                      (off mod (decoded_width out * 4)) Hr ltac:(lia)).
    replace (off / (decoded_width out * 4) * (decoded_width out * 4)
             + off mod (decoded_width out * 4)) with off in Hfill by lia.
    rewrite Hfill.
    replace ((0 + off / (decoded_width out * 4)) * (decoded_width out * 4)
             + 0 * 4 + off mod (decoded_width out * 4)) with off by lia.
    unfold byte_at, size in *.
    destruct (Z.ltb_spec off 0); [lia|].
    rewrite nth_error_firstn.
    destruct (Nat.ltb_spec (Z.to_nat off) (length dst)); [reflexivity|lia].
Qed.

Lemma decode_then_copy_whole_image_sample :
  CopyPixels frame_4x2 None (4 * 4) (size (blank 32)) (Some (blank 32))
  = Ret (S_OK, Some (firstn (length (blank 32)) pixels_4x2)).
Proof.
  apply (decode_then_copy_whole_image
           (environment true sample_decoder true) [x00] 1 None []
           frame_4x2 pixels_4x2 (blank 32)).
  - reflexivity.
  - reflexivity.
  - vm_compute; congruence.
  - vm_compute; congruence.
  - reflexivity.
Defined.

(** X12. Decode, then ask for the size: when the decoder's dimensions are
    [int] values, [GetSize] on the decoded frame stores exactly those
    dimensions; the conversion to [UINT] changes nothing. *)
Theorem decode_then_GetSize
    (env : Environment) (vp8_bitstream : buffer) (stream_size : Z)
    (prior : option held_frame) (h : heap)
    (frame : DecodeFrame) (w0 h0 : Z) :
  ppOutput (CreateFromVP8Stream env vp8_bitstream stream_size prior h)
    = Some frame ->
  decoded_width (WebPDecodeBGRA env vp8_bitstream stream_size) <= INT_MAX ->
  decoded_height (WebPDecodeBGRA env vp8_bitstream stream_size) <= INT_MAX ->
  GetSize frame (Some w0) (Some h0)
  = Ret (S_OK,
         Some (decoded_width (WebPDecodeBGRA env vp8_bitstream stream_size)),
         Some (decoded_height (WebPDecodeBGRA env vp8_bitstream stream_size))).
Proof.
  intros Hframe Hwi Hhi.
  destruct (CreateFromVP8Stream_frame env vp8_bitstream stream_size prior h frame
              Hframe) as (Himg & _ & Hw & Hh).
  unfold GetSize. rewrite Himg. cbn [width height].
  rewrite !to_UINT_small by (unfold is_UINT, UINT_MAX, INT_MAX in *; lia).
  reflexivity.
Qed.

Lemma decode_then_GetSize_sample :
  GetSize frame_4x2 (Some 0) (Some 0) = Ret (S_OK, Some 4, Some 2).
Proof.
  apply (decode_then_GetSize (environment true sample_decoder true)
           [x00] 1 None [] frame_4x2 0 0).
  - reflexivity.
  - vm_compute; congruence.
  - vm_compute; congruence.
Defined.

(** ** References taken by [QueryInterface] *)

Section QueryInterfaceReferences.

Context (IID_IUnknown IID_IWICBitmapFrameDecode IID_IWICBitmapSource : GUID).
Context (DecodeFrame_AddRef : DecodeFrame -> DecodeFrame).
Context (DummyFrame : Type) (DummyFrame_AddRef : DummyFrame -> DummyFrame).

Local Abbreviation query_frame :=
  (DecodeFrame_QueryInterface IID_IUnknown IID_IWICBitmapFrameDecode
     IID_IWICBitmapSource DecodeFrame_AddRef).
Local Abbreviation query_dummy :=
  (DummyFrame_QueryInterface IID_IUnknown IID_IWICBitmapFrameDecode
     DummyFrame DummyFrame_AddRef).

(** X14. [QueryInterface] takes a reference exactly when it succeeds.  On
    each frame class, for every identifier and every [ppvObject], null or
    not: either the call returns [S_OK], has called [AddRef] once and has
    stored the frame in [*ppvObject]; or it returns another code, has left
    the object alone, and [*ppvObject] (when there is one) is null. *)
Theorem QueryInterface_reference_iff_success
    (frame : DecodeFrame) (dummy : DummyFrame) (riid : GUID)
    (ppvObject : option (option interface_pointer)) :
  ((hr (query_frame frame riid ppvObject) = S_OK /\
    this_out (query_frame frame riid ppvObject) = DecodeFrame_AddRef frame /\
    ppvObject_out (query_frame frame riid ppvObject)
      = Some (Some this_as_IWICBitmapFrameDecode))
   \/
   (hr (query_frame frame riid ppvObject) <> S_OK /\
    this_out (query_frame frame riid ppvObject) = frame /\
    ppvObject_out (query_frame frame riid ppvObject)
      = match ppvObject with Some _ => Some None | None => None end))
  /\
  ((hr (query_dummy dummy riid ppvObject) = S_OK /\
    this_out (query_dummy dummy riid ppvObject) = DummyFrame_AddRef dummy /\
    ppvObject_out (query_dummy dummy riid ppvObject)
      = Some (Some this_as_IWICBitmapFrameDecode))
   \/
   (hr (query_dummy dummy riid ppvObject) <> S_OK /\
    this_out (query_dummy dummy riid ppvObject) = dummy /\
    ppvObject_out (query_dummy dummy riid ppvObject)
      = match ppvObject with Some _ => Some None | None => None end)).
Proof.
  unfold DecodeFrame_QueryInterface, DummyFrame_QueryInterface.
  destruct ppvObject as [old|].
  - split.
    + destruct (negb (IsEqualGUID riid IID_IUnknown)
                && negb (IsEqualGUID riid IID_IWICBitmapFrameDecode)
                && negb (IsEqualGUID riid IID_IWICBitmapSource)); cbn.
      * right. repeat split. discriminate.
      * left. repeat split.
    + destruct (negb (IsEqualGUID riid IID_IUnknown)
                && negb (IsEqualGUID riid IID_IWICBitmapFrameDecode)); cbn.
      * right. repeat split. discriminate.
      * left. repeat split.
  - cbn. split; right; repeat split; discriminate.
Qed.

(** X15. The two frame classes differ on [IID_IWICBitmapSource] only: for
    any other identifier they return the same code and leave the same
    value in [*ppvObject]. *)
Theorem QueryInterface_frames_agree_elsewhere
    (frame : DecodeFrame) (dummy : DummyFrame) (riid : GUID)
    (ppvObject : option (option interface_pointer)) :
  riid <> IID_IWICBitmapSource ->
  hr (query_dummy dummy riid ppvObject) = hr (query_frame frame riid ppvObject)
  /\ ppvObject_out (query_dummy dummy riid ppvObject)
     = ppvObject_out (query_frame frame riid ppvObject).
Proof.
  intros Hne. apply IsEqualGUID_false in Hne.
  unfold DecodeFrame_QueryInterface, DummyFrame_QueryInterface.
  destruct ppvObject as [old|]; [|split; reflexivity].
  rewrite Hne. cbn [negb]. rewrite andb_true_r.
  destruct (negb (IsEqualGUID riid IID_IUnknown)
            && negb (IsEqualGUID riid IID_IWICBitmapFrameDecode));
    split; reflexivity.
Qed.

End QueryInterfaceReferences.

Lemma QueryInterface_frames_agree_elsewhere_sdk :
  hr (DummyFrame_QueryInterface sdk_IID_IUnknown
        sdk_IID_IWICBitmapFrameDecode unit (fun u => u) tt
        sdk_IID_IWICBitmapFrameDecode (Some None))
  = hr (DecodeFrame_QueryInterface sdk_IID_IUnknown
          sdk_IID_IWICBitmapFrameDecode sdk_IID_IWICBitmapSource
          (fun f => f) frame_4x2 sdk_IID_IWICBitmapFrameDecode (Some None))
  /\ ppvObject_out (DummyFrame_QueryInterface sdk_IID_IUnknown
        sdk_IID_IWICBitmapFrameDecode unit (fun u => u) tt
        sdk_IID_IWICBitmapFrameDecode (Some None))
     = ppvObject_out (DecodeFrame_QueryInterface sdk_IID_IUnknown
          sdk_IID_IWICBitmapFrameDecode sdk_IID_IWICBitmapSource
          (fun f => f) frame_4x2 sdk_IID_IWICBitmapFrameDecode (Some None)).
Proof.
  apply (QueryInterface_frames_agree_elsewhere
           sdk_IID_IUnknown sdk_IID_IWICBitmapFrameDecode
           sdk_IID_IWICBitmapSource (fun f => f) unit (fun u => u)
           frame_4x2 tt sdk_IID_IWICBitmapFrameDecode (Some None)).
  discriminate.
Defined.

(** Decoding again into a [*ppOutput] that owns the 4 x 2 frame: the old
    frame is destroyed and the new one takes its place. *)
Lemma CreateFromVP8Stream_success_sample :
  exists frame data,
    ppOutput (CreateFromVP8Stream (environment true sample_decoder true)
                [x00] 1 sole_owner_4x2 heap_of_4x2) = Some frame /\
    rgb (image_ frame) = Some data /\
    0 < width (image_ frame) /\ 0 < height (image_ frame) /\
    stride (image_ frame) = int_mul (width (image_ frame)) kBytesPerPixel /\
    heap_out (CreateFromVP8Stream (environment true sample_decoder true)
                [x00] 1 sole_owner_4x2 heap_of_4x2)
      = FrameObject :: PixelBuffer data :: ImageObject :: [].
Proof.
  apply (CreateFromVP8Stream_success (environment true sample_decoder true)
           [x00] 1 sole_owner_4x2 heap_of_4x2).
  reflexivity.
Defined.
